(** * HD44780 bit-banging LCD driver (hd44780.py): model and properties

    The driver is a single Python class whose methods write to GPIO pins.
    The model below keeps the class as a record, every method as a
    computation in a small state-and-exception monad, and the pins as a
    log of the calls made on them.  Pin writes performed before an
    exception is raised stay in the log, as they do on the hardware. *)

From Stdlib Require Import ZArith NArith String Bool Lia List.
Import ListNotations.
Local Open Scope string_scope.
Local Open Scope list_scope.
Local Open Scope Z_scope.

(** ** Python base semantics used by the driver *)

Module Py.

(** The exceptions the driver can run into.  [Exception] is the generic
    class the driver raises itself, with its message. *)
Inductive exn : Type :=
| IndexError
| TypeError
| ValueError
| ZeroDivisionError
| Exception (msg : string).

Inductive result (A : Type) : Type :=
| Ok (a : A)
| Raise (e : exn).
Arguments Ok {A} a.
Arguments Raise {A} e.

(** The two shapes of value [_init_line_addrs] can return: a bare int
    or a tuple of ints. *)
Inductive pyval : Type :=
| PyInt (n : Z)
| PyTuple (l : list Z).

(** [int(a == b)] on ints. *)
Definition int_eq (a b : Z) : Z := if a =? b then 1 else 0.

(** [seq[i]] on a list or tuple: negative indices count from the end,
    anything else out of range raises IndexError. *)
Definition getitem {A : Type} (l : list A) (i : Z) : result A :=
  let n := Z.of_nat (length l) in
  let j := if i <? 0 then i + n else i in
  if (j <? 0) || (n <=? j) then Raise IndexError
  else match nth_error l (Z.to_nat j) with
       | Some x => Ok x
       | None => Raise IndexError
       end.

(** [v[i]] on a value: an int is not subscriptable. *)
Definition subscript (v : pyval) (i : Z) : result Z :=
  match v with
  | PyInt _ => Raise TypeError
  | PyTuple l => getitem l i
  end.

(** [range(start, stop, step)] as the list it iterates over. *)
Definition range (start stop step : Z) : result (list Z) :=
  if step =? 0 then Raise ValueError
  else
    let n := if 0 <? step
             then (stop - start + step - 1) / step
             else (start - stop + (- step) - 1) / (- step) in
    Ok (map (fun k => start + Z.of_nat k * step) (seq 0 (Z.to_nat n))).

(** [a % b] and [a // b] on ints (floor semantics, as Z.modulo, Z.div). *)
Definition mod_ (a b : Z) : result Z :=
  if b =? 0 then Raise ZeroDivisionError else Ok (a mod b).

Definition floordiv (a b : Z) : result Z :=
  if b =? 0 then Raise ZeroDivisionError else Ok (a / b).

(** Binary digits of a positive number, most significant first. *)
Fixpoint pos_digits (p : positive) (acc : list Z) : list Z :=
  match p with
  | xH => 1 :: acc
  | xO q => pos_digits q (0 :: acc)
  | xI q => pos_digits q (1 :: acc)
  end.

(** [[int(x) for x in list('{0:08b}'.format(n))]] for [n >= 0]: the
    binary digits of [n], left-padded with zeros to at least 8. *)
Definition format_08b (n : N) : list Z :=
  let digits := match n with
                | N0 => [0]
                | Npos p => pos_digits p []
                end in
  repeat 0 (8 - length digits)%nat ++ digits.

End Py.
Import Py.

(** ** Pins and the log of calls made on them *)

(** A [machine.Pin] object is identified by the pin name it was built from. *)
Definition pin : Type := string.

Inductive event : Type :=
| PinInit (p : pin)               (* Pin(p, Pin.OUT) *)
| PinValue (p : pin) (v : Z)      (* p.value(v) *)
| SleepUs (us : Z).               (* time.sleep_us(us) *)

(** ** The HD44780 object *)

(* Total DDRAM *)
Definition DDRAM_TOTAL : Z := 80.

(* Line addresses: *)
Definition DDRAM0_START : Z := 0x00.
Definition DDRAM0_END : Z := 0x27.
Definition DDRAM1_START : Z := 0x40.
Definition DDRAM1_END : Z := 0x67.

(* Message type constants: *)
Definition MSG_TYPE_CMD : Z := 0.
Definition MSG_TYPE_DATA : Z := 1.

(* Interface operation mode constants: *)
Definition MODE_UNKNOWN : Z := 0.
Definition MODE_8BIT : Z := 8.
Definition MODE_4BIT : Z := 4.

(* Font codes *)
Definition FONT_5x8 : Z := 0.
Definition FONT_5x10 : Z := 1.

(* Default of _send's delay_us parameter *)
Definition DELAY_US : Z := 1530.

Record HD44780 : Type := mkHD44780 {
  _rs_pin : pin;
  _clk_pin : pin;
  _data_pins : list pin;
  _ch_idx : Z;
  _width : Z;
  _height : Z;
  _line_addr : pyval;
  _no_pins : Z;
  _mode : Z;
  _last_cmd_complete : Z;
  _rw_pin : option pin
}.

Definition with_ch_idx (self : HD44780) (v : Z) : HD44780 :=
  mkHD44780 (_rs_pin self) (_clk_pin self) (_data_pins self) v
            (_width self) (_height self) (_line_addr self) (_no_pins self)
            (_mode self) (_last_cmd_complete self) (_rw_pin self).

Definition with_mode (self : HD44780) (v : Z) : HD44780 :=
  mkHD44780 (_rs_pin self) (_clk_pin self) (_data_pins self) (_ch_idx self)
            (_width self) (_height self) (_line_addr self) (_no_pins self)
            v (_last_cmd_complete self) (_rw_pin self).

(** ** The monad of methods: object, pin log, exceptions *)

Definition state : Type := (HD44780 * list event)%type.

Definition M (A : Type) : Type := state -> result A * state.

Definition ret {A : Type} (a : A) : M A := fun st => (Ok a, st).

Definition bind {A B : Type} (m : M A) (k : A -> M B) : M B :=
  fun st =>
    match m st with
    | (Ok a, st') => k a st'
    | (Raise e, st') => (Raise e, st')
    end.

Declare Scope hd_scope.
Delimit Scope hd_scope with hd.
Notation "x <- m ;; k" := (bind m (fun x => k))
  (at level 61, m at next level, right associativity) : hd_scope.
Notation "m ;; k" := (bind m (fun _ => k))
  (at level 61, right associativity) : hd_scope.
Local Open Scope hd_scope.

Definition raise {A : Type} (e : exn) : M A := fun st => (Raise e, st).

Definition lift {A : Type} (r : result A) : M A :=
  fun st => (r, st).

Definition get_self : M HD44780 := fun st => (Ok (fst st), st).

Definition put_self (self : HD44780) : M unit :=
  fun st => (Ok tt, (self, snd st)).

Definition emit (e : event) : M unit :=
  fun st => (Ok tt, (fst st, snd st ++ [e])).

Definition pin_value (p : pin) (v : Z) : M unit := emit (PinValue p v).
Definition sleep_us (us : Z) : M unit := emit (SleepUs us).

(** [for x in xs: body(x)], left at the first exception. *)
Fixpoint for_each {A : Type} (xs : list A) (body : A -> M unit) : M unit :=
  match xs with
  | [] => ret tt
  | x :: xs' => body x ;; for_each xs' body
  end.

(** ** Methods *)

(** The inner loop of [_send]: put bits [i .. i+_no_pins-1] of the payload
    on the data pins. *)
Definition set_data_pins (bit_data : list Z) (i : Z) : M unit :=
  self <- get_self ;;
  bs <- lift (range 0 (_no_pins self) 1) ;;
  for_each bs (fun b =>
    p <- lift (getitem (_data_pins self) b) ;;
    v <- lift (getitem bit_data (i + b)) ;;
    pin_value p v).

Definition _send (bit_data : list Z) (msg_type : Z) (delay_us : Z) : M unit :=
  self <- get_self ;;
  (* Set the RS pin according to the message type we're sending: *)
  pin_value (_rs_pin self) (int_eq msg_type MSG_TYPE_DATA) ;;
  let payload_len := Z.of_nat (length bit_data) in
  (* Send the data as appropriately sized "nibbles": *)
  chunks <- lift (range 0 payload_len (_no_pins self)) ;;
  for_each chunks (fun i =>
    set_data_pins bit_data i ;;
    (* Pins are set; toggle the clock/enable pin: *)
    pin_value (_clk_pin self) 1 ;;
    sleep_us delay_us ;;
    pin_value (_clk_pin self) 0).

Definition _init_line_addrs (w h : Z) : result pyval :=
  if h =? 1 then Ok (PyInt DDRAM0_START)
  else if h =? 2 then Ok (PyTuple [DDRAM0_START; DDRAM1_START])
  else if h =? 4 then
    Ok (PyTuple [DDRAM0_START; DDRAM1_START;
                 DDRAM0_START + 0x14; DDRAM1_START + 0x14])
  else Raise (Exception "No DDRAM -> pixel mapping for this ratio!").

Definition clear : M unit :=
  _send [0;0;0;0;0;0;0;1] MSG_TYPE_CMD DELAY_US.

Definition home : M unit :=
  _send [0;0;0;0;0;0;1;0] MSG_TYPE_CMD DELAY_US.

Definition shift (s_c r_l : Z) : M unit :=
  _send [0;0;0;1;s_c;r_l;0;0] MSG_TYPE_CMD DELAY_US.

Definition set_8bit_mode : M unit :=
  for_each [0;1;2] (fun _ => _send [0;0;1;1] MSG_TYPE_CMD DELAY_US) ;;
  self <- get_self ;;
  put_self (with_mode self MODE_8BIT).

Definition set_4bit_mode : M unit :=
  self <- get_self ;;
  (if _mode self =? MODE_8BIT then ret tt else set_8bit_mode) ;;
  _send [0;0;1;0] MSG_TYPE_CMD DELAY_US.

Definition set_display_opts (d c b : Z) : M unit :=
  _send [0;0;0;0;1;d;c;b] MSG_TYPE_CMD DELAY_US.

Definition set_entry_mode (i_d s : Z) : M unit :=
  _send [0;0;0;0;0;1;i_d;s] MSG_TYPE_CMD DELAY_US.

Definition set_function (n f : Z) : M unit :=
  self <- get_self ;;
  (* Function set - data length: *)
  let dl_bit := int_eq (_no_pins self) 8 in
  _send [0;0;1;dl_bit;n;f;1;1] MSG_TYPE_CMD DELAY_US.

(** [[(addr >> n & 1) for n in range(7,-1,-1)]] *)
Definition addr_bits (addr : Z) : list Z :=
  map (fun n => Z.land (Z.shiftr addr n) 1) [7;6;5;4;3;2;1;0].

Definition set_ddram (addr : Z) : M unit :=
  let addr := Z.lor (Z.land addr 0xff) 0x80 in
  let data := addr_bits addr in
  _send data MSG_TYPE_CMD DELAY_US.

Definition set_cgram (addr : Z) : M unit :=
  let addr := Z.lor (Z.land addr 0x7f) 0x40 in
  let data := addr_bits addr in
  _send data MSG_TYPE_CMD DELAY_US.

(** One iteration of the loop of [write]; [ch] is [ord] of the character. *)
Definition write_char (ch : N) : M unit :=
  self <- get_self ;;
  line_pos <- lift (mod_ (_ch_idx self) (_width self)) ;;
  (* If we've reached the beginning of a line: *)
  (if line_pos =? 0 then
     line_no <- lift (floordiv (_ch_idx self) (_width self)) ;;
     addr <- lift (subscript (_line_addr self) line_no) ;;
     set_ddram addr
   else ret tt) ;;
  (* Send actual data: *)
  let data := format_08b ch in
  _send data MSG_TYPE_DATA DELAY_US ;;
  self <- get_self ;;
  idx <- lift (mod_ (_ch_idx self + 1) (_width self * _height self)) ;;
  put_self (with_ch_idx self idx).

(** A str is the list of the code points of its characters. *)
Definition write (buf : list N) : M unit :=
  home ;;
  self <- get_self ;;
  put_self (with_ch_idx self 0) ;; (* Reset character counter *)
  for_each buf write_char.

(** The [mode] property. *)
Definition mode (self : HD44780) : Z :=
  if _no_pins self =? 8 then MODE_8BIT
  else if _no_pins self =? 4 then MODE_4BIT
  else MODE_UNKNOWN.

Definition default_host_pins : list pin := ["GP8"; "GP30"; "GP31"; "GP3"].

(** The constructor from its first bus transfer on, run on the object
    whose attributes have just been assigned. *)
Definition init_sequence : M unit :=
  (* Reset to 8-bit mode (starting point for all configurations): *)
  set_8bit_mode ;;
  (* Set mode based on number of pins: *)
  self <- get_self ;;
  (if _no_pins self =? 8 then set_8bit_mode
   else if _no_pins self =? 4 then set_4bit_mode
   else raise (Exception "Number of pins must be 4 or 8!")) ;;
  (* Return cursor to home: *)
  clear ;;
  (* One or multi-line display (also, default to 5x8 font): *)
  self <- get_self ;;
  (if _height self =? 1 then set_function 0 0 else set_function 1 0).

(** The constructor.  It starts from the pin log [hw] and gives back the
    new object, or the exception that left no object behind, with the pin
    log as the constructor left it. *)
Definition __init__ (host_pins : option (list pin)) (clk rs : pin)
    (rw : option pin) (width height font : Z) (hw : list event)
    : result HD44780 * list event :=
  let host_pins := match host_pins with
                   | None => default_host_pins (* Default to 4-bit mode *)
                   | Some l => l
                   end in
  (* Initialize pins: *)
  let hw := hw ++ [PinInit rs] ++ [PinInit clk] ++ map PinInit host_pins in
  (* Accounting: *)
  match _init_line_addrs width height with
  | Raise e => (Raise e, hw)
  | Ok line_addr =>
    let self := mkHD44780 rs clk host_pins 0 width height line_addr
                  (Z.of_nat (length host_pins)) MODE_UNKNOWN 0 rw in
    (* RW pin is optional: *)
    let hw := match rw with
              | Some p => hw ++ [PinInit p]
              | None => hw
              end in
    match init_sequence (self, hw) with
    | (Ok _, (self', hw')) => (Ok self', hw')
    | (Raise e, (_, hw')) => (Raise e, hw')
    end
  end.

(** The public operations, as one type, for statements about all of them. *)
Inductive public_op : Type :=
| OpClear
| OpHome
| OpShift (s_c r_l : Z)
| OpWrite (buf : list N)
| OpSet8bitMode
| OpSet4bitMode
| OpSetDisplayOpts (d c b : Z)
| OpSetEntryMode (i_d s : Z)
| OpSetFunction (n f : Z)
| OpSetDdram (addr : Z)
| OpSetCgram (addr : Z).

Definition run_op (op : public_op) : M unit :=
  match op with
  | OpClear => clear
  | OpHome => home
  | OpShift s_c r_l => shift s_c r_l
  | OpWrite buf => write buf
  | OpSet8bitMode => set_8bit_mode
  | OpSet4bitMode => set_4bit_mode
  | OpSetDisplayOpts d c b => set_display_opts d c b
  | OpSetEntryMode i_d s => set_entry_mode i_d s
  | OpSetFunction n f => set_function n f
  | OpSetDdram addr => set_ddram addr
  | OpSetCgram addr => set_cgram addr
  end.

(** ** What a transfer puts on the pins *)

(** One chunk: the data pins take the bits in order, then the clock pin
    is raised, held and lowered. *)
Definition chunk_events (self : HD44780) (delay_us : Z) (bits : list Z)
    : list event :=
  map (fun pv => PinValue (fst pv) (snd pv)) (combine (_data_pins self) bits)
  ++ [PinValue (_clk_pin self) 1; SleepUs delay_us;
      PinValue (_clk_pin self) 0].

(** A whole 8-bit payload on a 4-pin or an 8-pin bus. *)
Definition byte_events (self : HD44780) (msg_type : Z) (bits : list Z)
    : list event :=
  PinValue (_rs_pin self) (int_eq msg_type MSG_TYPE_DATA) ::
  (if _no_pins self =? 4
   then chunk_events self DELAY_US (firstn 4 bits)
        ++ chunk_events self DELAY_US (skipn 4 bits)
   else chunk_events self DELAY_US bits).

(** The number a bit list denotes, first bit most significant. *)
Definition bits_value (bits : list Z) : Z :=
  fold_left (fun acc b => 2 * acc + b) bits 0.

(** The object has a bus the driver supports. *)
Definition bus_ready (self : HD44780) : Prop :=
  _no_pins self = Z.of_nat (length (_data_pins self)) /\
  (_no_pins self = 4 \/ _no_pins self = 8).

(** What [write] puts on the pins after its [home] command, from counter
    value [idx] on, for a line table [tbl]. *)
Fixpoint write_events (self : HD44780) (tbl : list Z) (idx : Z)
    (buf : list N) : list event :=
  match buf with
  | [] => []
  | ch :: rest =>
    (if idx mod _width self =? 0
     then byte_events self MSG_TYPE_CMD
            (addr_bits (Z.lor (Z.land (nth (Z.to_nat (idx / _width self))
                                           tbl 0) 0xff) 0x80))
     else [])
    ++ byte_events self MSG_TYPE_DATA (format_08b ch)
    ++ write_events self tbl ((idx + 1) mod (_width self * _height self)) rest
  end.

(** The counter after [buf] has been written from counter value [idx]. *)
Fixpoint counter_after (self : HD44780) (idx : Z) (buf : list N) : Z :=
  match buf with
  | [] => idx
  | _ :: rest =>
    counter_after self ((idx + 1) mod (_width self * _height self)) rest
  end.

Definition is_bit (b : Z) : Prop := b = 0 \/ b = 1.

(** Check of an address payload, for the values of one byte. *)
Definition payload_ok (v : Z) : bool :=
  let bits := addr_bits v in
  (length bits =? 8)%nat && (bits_value bits =? v)
  && forallb (fun b => (b =? 0) || (b =? 1)) bits.

(** The payload of the home command. *)
Definition home_bits : list Z := [0; 0; 0; 0; 0; 0; 1; 0].

(** The object can take [write]: a supported bus, a positive geometry and
    a line table that is a tuple with one entry per row. *)
Definition write_ready (self : HD44780) (tbl : list Z) : Prop :=
  bus_ready self /\ 0 < _width self /\ 0 < _height self /\
  _line_addr self = PyTuple tbl /\ Z.of_nat (length tbl) = _height self.

(** Every character of the text has an 8-bit code. *)
Definition latin1 (buf : list N) : Prop :=
  Forall (fun ch => (ch < 256)%N) buf.

(** ** Objects and inputs used in examples *)

(** The object [HD44780()] builds, all parameters at their defaults. *)
Definition lcd_16x2 : HD44780 :=
  mkHD44780 "GP4" "GP0" default_host_pins 0 16 2 (PyTuple [0x00; 0x40])
            4 MODE_8BIT 0 None.

(** The object [HD44780(height=1)] builds. *)
Definition lcd_16x1 : HD44780 :=
  mkHD44780 "GP4" "GP0" default_host_pins 0 16 1 (PyInt 0x00)
            4 MODE_8BIT 0 None.

(** A full 8-bit bus. *)
Definition eight_host_pins : list pin :=
  ["GP8"; "GP30"; "GP31"; "GP3"; "GP22"; "GP14"; "GP15"; "GP16"].

(** The payloads the constructor sends. *)
Definition reset_bits : list Z := [0; 0; 1; 1].
Definition switch_bits : list Z := [0; 0; 1; 0].
Definition clear_bits : list Z := [0; 0; 0; 0; 0; 0; 0; 1].

(** A 4-bit payload on a 4-pin bus: one chunk. *)
Definition nibble_events (self : HD44780) (msg_type : Z) (bits : list Z)
    : list event :=
  PinValue (_rs_pin self) (int_eq msg_type MSG_TYPE_DATA) ::
  chunk_events self DELAY_US bits.

(** The object the constructor hands out on success. *)
Definition built (host_pins : list pin) (clk rs : pin) (rw : option pin)
    (width height : Z) (line_addr : pyval) : HD44780 :=
  mkHD44780 rs clk host_pins 0 width height line_addr
            (Z.of_nat (length host_pins)) MODE_8BIT 0 rw.

(** The pins the constructor sets up, in order. *)
Definition init_events (host_pins : list pin) (clk rs : pin)
    (rw : option pin) : list event :=
  [PinInit rs] ++ [PinInit clk] ++ map PinInit host_pins
  ++ match rw with Some p => [PinInit p] | None => [] end.

(** What can be asked of an object for an operation to go through. *)
Definition op_defined (self : HD44780) (op : public_op) : Prop :=
  match op with
  | OpWrite buf => (exists tbl, write_ready self tbl) /\ latin1 buf
  | OpSet8bitMode | OpSet4bitMode => bus_ready self /\ _no_pins self = 4
  | _ => bus_ready self
  end.

(** A bus of three data pins. *)
Definition three_host_pins : list pin := ["GP8"; "GP30"; "GP31"].

(** The message of the pin-count check of the constructor. *)
Definition pin_count_error : exn :=
  Exception "Number of pins must be 4 or 8!".

(** ** A transfer on any bus *)

(** What a transfer of [k] whole chunks puts on the pins: register select
    once, then chunk [j] with the payload bits from position [j * n] on,
    [n] the number of data pins. *)
Definition transfer_events (self : HD44780) (msg_type delay_us : Z)
    (bits : list Z) (k : nat) : list event :=
  PinValue (_rs_pin self) (int_eq msg_type MSG_TYPE_DATA) ::
  flat_map (fun j => chunk_events self delay_us
                       (skipn (j * length (_data_pins self)) bits))
           (seq 0 k).

(** ** Read accessors *)

(** [Pin.id()]: the name the pin was built from. *)
Definition pin_id (p : pin) : string := p.

(** The [width], [height] and [host_pins] properties. *)
Definition width (self : HD44780) : Z := _width self.
Definition height (self : HD44780) : Z := _height self.
Definition host_pins (self : HD44780) : list string :=
  map pin_id (_data_pins self).

(** The three reset transfers of [set_8bit_mode] on a 4-pin bus. *)
Definition reset_events (self : HD44780) : list event :=
  nibble_events self MSG_TYPE_CMD reset_bits
  ++ nibble_events self MSG_TYPE_CMD reset_bits
  ++ nibble_events self MSG_TYPE_CMD reset_bits.

(** ** States a caller can reach *)

(** The level the log has last given pin [c]; [v0] if it has not written
    it. *)
Fixpoint level (c : pin) (hw : list event) (v0 : Z) : Z :=
  match hw with
  | [] => v0
  | PinValue p v :: rest => level c rest (if String.eqb p c then v else v0)
  | _ :: rest => level c rest v0
  end.

(** A sequence of public operations; after an exception the caller goes
    on with the object as the failed operation left it. *)
Fixpoint run_ops (ops : list public_op) (st : state) : state :=
  match ops with
  | [] => st
  | op :: rest => run_ops rest (snd (run_op op st))
  end.

(** The clock pin has a pin of its own. *)
Definition wired (o : HD44780) : Prop :=
  _rs_pin o <> _clk_pin o /\ ~ In (_clk_pin o) (_data_pins o).

(** [self] is the object [o] up to its counter, and the counter is a cell
    of the screen (when the screen has cells). *)
Definition like (o self : HD44780) : Prop :=
  exists idx,
    self = with_ch_idx o idx /\
    (0 < _width o * _height o -> 0 <= idx < _width o * _height o).

(** The state of an object that is [like o] with its clock line low. *)
Definition steady (o : HD44780) (st : state) : Prop :=
  like o (fst st) /\ level (_clk_pin o) (snd st) 0 = 0.

(** [m] takes steady states to steady states, whether it returns or
    raises. *)
Definition keeps (o : HD44780) {A : Type} (m : M A) : Prop :=
  forall st, steady o st -> steady o (snd (m st)).

(** ** Waiting for the previous command *)

Definition with_last_cmd_complete (self : HD44780) (v : Z) : HD44780 :=
  mkHD44780 (_rs_pin self) (_clk_pin self) (_data_pins self) (_ch_idx self)
            (_width self) (_height self) (_line_addr self) (_no_pins self)
            (_mode self) v (_rw_pin self).

(** [_wait_for_completion]; [now] is what [time.ticks_us()] returns when
    the method reads the clock. *)
Definition _wait_for_completion (now delay_us : Z) : M unit :=
  self <- get_self ;;
  (if now <? _last_cmd_complete self then
     let remain_us := (_last_cmd_complete self - now) + 1 in
     match _rw_pin self with
     | None =>
       (* If enough time hasn't elapsed, we'll wait until the maximum
          execution time has elapsed: *)
       sleep_us remain_us
     | Some _ =>
       (* For now, we do the same as if we had no RW pin: *)
       sleep_us remain_us
     end
   else ret tt) ;;
  (* Update last timestamp and proceed: *)
  self <- get_self ;;
  put_self (with_last_cmd_complete self (now + delay_us)).

(** The microseconds a log has slept. *)
Fixpoint slept (hw : list event) : Z :=
  match hw with
  | [] => 0
  | SleepUs us :: rest => us + slept rest
  | _ :: rest => slept rest
  end.

(** ** Reading a command byte back *)

(** Bit [n] of a byte. *)
Definition bit_of (v n : Z) : Z := Z.land (Z.shiftr v n) 1.

(** The operation a command byte stands for, by its leading 1; the
    data-length bit and the two low bits of function set are not arguments
    of an operation and are dropped. *)
Definition decode_command (v : Z) : option public_op :=
  if v <? 1 then None
  else if v <? 2 then Some OpClear
  else if v <? 4 then Some OpHome
  else if v <? 8 then Some (OpSetEntryMode (bit_of v 1) (bit_of v 0))
  else if v <? 16
       then Some (OpSetDisplayOpts (bit_of v 2) (bit_of v 1) (bit_of v 0))
  else if v <? 32 then Some (OpShift (bit_of v 3) (bit_of v 2))
  else if v <? 64 then Some (OpSetFunction (bit_of v 3) (bit_of v 2))
  else if v <? 128 then Some (OpSetCgram (v - 0x40))
  else if v <? 256 then Some (OpSetDdram (v - 0x80))
  else None.

(** The arguments of a command are what the display can take: flags are
    0 or 1, a CGRAM address has 6 bits, a DDRAM address 7. *)
Definition command_args_ok (op : public_op) : Prop :=
  match op with
  | OpClear | OpHome => True
  | OpShift s_c r_l => is_bit s_c /\ is_bit r_l
  | OpSetDisplayOpts d c b => is_bit d /\ is_bit c /\ is_bit b
  | OpSetEntryMode i_d s => is_bit i_d /\ is_bit s
  | OpSetFunction n f => is_bit n /\ is_bit f
  | OpSetCgram addr => 0 <= addr < 64
  | OpSetDdram addr => 0 <= addr < 128
  | OpWrite _ | OpSet8bitMode | OpSet4bitMode => False
  end.

(** ** What a run that returns has done to the pin log *)

(** The wiring of the object is what it was. *)
Definition same_wiring (s s' : HD44780) : Prop :=
  _clk_pin s' = _clk_pin s /\ _no_pins s' = _no_pins s.

Inductive effect : Type :=
| Quiet          (* nothing was written *)
| Grows          (* something may have been written *)
| Low            (* the last thing written is the clock pin going low *)
| LowOrQuiet.

(** The shape of the events [t] a run has added, for clock pin [c]. *)
Definition shape (k : effect) (c : pin) (t : list event) : Prop :=
  match k with
  | Quiet => t = []
  | Grows => True
  | Low => exists t', t = t' ++ [PinValue c 0]
  | LowOrQuiet => t = [] \/ exists t', t = t' ++ [PinValue c 0]
  end.

Definition seq_effect (k1 k2 : effect) : effect :=
  match k1, k2 with
  | Quiet, k => k
  | k, Quiet => k
  | _, Low => Low
  | Low, LowOrQuiet => Low
  | LowOrQuiet, LowOrQuiet => LowOrQuiet
  | _, _ => Grows
  end.

(** [runs_at c k m]: from a state whose clock pin is [c], a run of [m] that
    returns keeps the wiring and adds events of shape [k] to the log. *)
Definition runs_at (c : pin) (k : effect) {A : Type} (m : M A) : Prop :=
  forall st a st',
    _clk_pin (fst st) = c ->
    0 <= _no_pins (fst st) ->
    m st = (Ok a, st') ->
    same_wiring (fst st) (fst st') /\
    exists t, snd st' = snd st ++ t /\ shape k c t.

(** ** The pin log only grows, and methods do not read it *)

Definition shift_log {A : Type} (hw : list event) (r : result A * state)
    : result A * state :=
  (fst r, (fst (snd r), hw ++ snd (snd r))).

(** [log_blind m]: running [m] on a log [hw] is running it on the empty
    log and putting [hw] in front. *)
Definition log_blind {A : Type} (m : M A) : Prop :=
  forall self hw, m (self, hw) = shift_log hw (m (self, [])).

Create HintDb hd_blind.

Ltac blind_base :=
  intros self hw; unfold shift_log, ret, raise, lift, get_self, put_self;
  cbn; now rewrite ?app_nil_r.

Lemma blind_ret {A} (a : A) : log_blind (ret a).
Proof. blind_base. Qed.

Lemma blind_raise {A} (e : exn) : log_blind (@raise A e).
Proof. blind_base. Qed.

Lemma blind_lift {A} (r : result A) : log_blind (lift r).
Proof. blind_base. Qed.

Lemma blind_get_self : log_blind get_self.
Proof. blind_base. Qed.

Lemma blind_put_self s : log_blind (put_self s).
Proof. blind_base. Qed.

Lemma blind_emit e : log_blind (emit e).
Proof. intros self hw. reflexivity. Qed.

Lemma blind_pin_value p v : log_blind (pin_value p v).
Proof. apply blind_emit. Qed.

Lemma blind_sleep_us us : log_blind (sleep_us us).
Proof. apply blind_emit. Qed.

Lemma blind_bind {A B} (m : M A) (k : A -> M B) :
  log_blind m -> (forall a, log_blind (k a)) -> log_blind (bind m k).
Proof.
  intros Hm Hk self hw. unfold bind.
  rewrite (Hm self hw).
  destruct (m (self, [])) as [[a | e] [s1 h1]]; cbn.
  - rewrite (Hk a s1 (hw ++ h1)), (Hk a s1 h1).
    unfold shift_log; cbn. now rewrite app_assoc.
  - reflexivity.
Qed.

Lemma blind_for_each {A} (xs : list A) (body : A -> M unit) :
  (forall x, log_blind (body x)) -> log_blind (for_each xs body).
Proof.
  intros Hb. induction xs as [| x xs IH]; cbn [for_each].
  - apply blind_ret.
  - apply blind_bind; auto.
Qed.

Lemma blind_if {A} (c : bool) (m1 m2 : M A) :
  log_blind m1 -> log_blind m2 -> log_blind (if c then m1 else m2).
Proof. now destruct c. Qed.

#[local] Hint Resolve blind_ret blind_raise blind_lift blind_get_self
  blind_put_self blind_emit blind_pin_value blind_sleep_us : hd_blind.

Ltac blind :=
  repeat first
    [ match goal with |- forall _, _ => intro end
    | solve [auto with hd_blind]
    | apply blind_bind | apply blind_for_each | apply blind_if ].

Lemma blind_send bit_data msg_type delay_us :
  log_blind (_send bit_data msg_type delay_us).
Proof.
  unfold _send, set_data_pins. blind.
Qed.

#[local] Hint Resolve blind_send : hd_blind.

(** ** Transfers on a supported bus *)

(** Evaluate a method on the empty log and put the old log back in front. *)
Ltac run_blind H :=
  rewrite H;
  match goal with
  | |- shift_log ?hw ?X = _ =>
      let v := eval vm_compute in X in
      replace X with v by (vm_compute; reflexivity)
  end;
  unfold shift_log; cbn [fst snd]; reflexivity.

Lemma send_byte_4pins (self : HD44780) (hw : list event)
    (msg_type delay_us b7 b6 b5 b4 b3 b2 b1 b0 : Z) (p0 p1 p2 p3 : pin) :
  _data_pins self = [p0; p1; p2; p3] ->
  _no_pins self = 4 ->
  _send [b7; b6; b5; b4; b3; b2; b1; b0] msg_type delay_us (self, hw) =
  (Ok tt,
   (self,
    hw ++ [PinValue (_rs_pin self) (int_eq msg_type MSG_TYPE_DATA);
           PinValue p0 b7; PinValue p1 b6; PinValue p2 b5; PinValue p3 b4;
           PinValue (_clk_pin self) 1; SleepUs delay_us;
           PinValue (_clk_pin self) 0;
           PinValue p0 b3; PinValue p1 b2; PinValue p2 b1; PinValue p3 b0;
           PinValue (_clk_pin self) 1; SleepUs delay_us;
           PinValue (_clk_pin self) 0])).
Proof.
  intros Hp Hn. destruct self; cbn in Hp, Hn; subst.
  run_blind blind_send.
Qed.

Lemma send_byte_8pins (self : HD44780) (hw : list event)
    (msg_type delay_us b7 b6 b5 b4 b3 b2 b1 b0 : Z)
    (p0 p1 p2 p3 p4 p5 p6 p7 : pin) :
  _data_pins self = [p0; p1; p2; p3; p4; p5; p6; p7] ->
  _no_pins self = 8 ->
  _send [b7; b6; b5; b4; b3; b2; b1; b0] msg_type delay_us (self, hw) =
  (Ok tt,
   (self,
    hw ++ [PinValue (_rs_pin self) (int_eq msg_type MSG_TYPE_DATA);
           PinValue p0 b7; PinValue p1 b6; PinValue p2 b5; PinValue p3 b4;
           PinValue p4 b3; PinValue p5 b2; PinValue p6 b1; PinValue p7 b0;
           PinValue (_clk_pin self) 1; SleepUs delay_us;
           PinValue (_clk_pin self) 0])).
Proof.
  intros Hp Hn. destruct self; cbn in Hp, Hn; subst.
  run_blind blind_send.
Qed.

(** A 4-bit payload on a 4-pin bus is one chunk. *)
Lemma send_nibble_4pins (self : HD44780) (hw : list event)
    (msg_type delay_us b3 b2 b1 b0 : Z) (p0 p1 p2 p3 : pin) :
  _data_pins self = [p0; p1; p2; p3] ->
  _no_pins self = 4 ->
  _send [b3; b2; b1; b0] msg_type delay_us (self, hw) =
  (Ok tt,
   (self,
    hw ++ [PinValue (_rs_pin self) (int_eq msg_type MSG_TYPE_DATA);
           PinValue p0 b3; PinValue p1 b2; PinValue p2 b1; PinValue p3 b0;
           PinValue (_clk_pin self) 1; SleepUs delay_us;
           PinValue (_clk_pin self) 0])).
Proof.
  intros Hp Hn. destruct self; cbn in Hp, Hn; subst.
  run_blind blind_send.
Qed.

(** A 4-bit payload on an 8-pin bus: the fifth data pin finds no bit. *)
Lemma send_nibble_8pins (self : HD44780) (hw : list event)
    (msg_type delay_us b3 b2 b1 b0 : Z)
    (p0 p1 p2 p3 p4 p5 p6 p7 : pin) :
  _data_pins self = [p0; p1; p2; p3; p4; p5; p6; p7] ->
  _no_pins self = 8 ->
  _send [b3; b2; b1; b0] msg_type delay_us (self, hw) =
  (Raise IndexError,
   (self,
    hw ++ [PinValue (_rs_pin self) (int_eq msg_type MSG_TYPE_DATA);
           PinValue p0 b3; PinValue p1 b2; PinValue p2 b1;
           PinValue p3 b0])).
Proof.
  intros Hp Hn. destruct self; cbn in Hp, Hn; subst.
  run_blind blind_send.
Qed.

Lemma list_of_length_8 {A} (l : list A) :
  length l = 8%nat -> exists a b c d e f g h, l = [a; b; c; d; e; f; g; h].
Proof.
  intros H.
  do 8 (destruct l as [| ? l]; [discriminate H |]).
  destruct l; [| discriminate H]. now repeat eexists.
Qed.

Lemma list_of_length_4 {A} (l : list A) :
  length l = 4%nat -> exists a b c d, l = [a; b; c; d].
Proof.
  intros H.
  do 4 (destruct l as [| ? l]; [discriminate H |]).
  destruct l; [| discriminate H]. now repeat eexists.
Qed.

(** On a supported bus an 8-bit payload always goes through, as
    [byte_events] describes, and leaves the object as it was. *)
Lemma send_byte (self : HD44780) (hw : list event) (msg_type : Z)
    (bits : list Z) :
  bus_ready self ->
  length bits = 8%nat ->
  _send bits msg_type DELAY_US (self, hw) =
  (Ok tt, (self, hw ++ byte_events self msg_type bits)).
Proof.
  intros [Hlen [H4 | H8]] Hb;
    destruct (list_of_length_8 bits Hb)
      as (b7 & b6 & b5 & b4 & b3 & b2 & b1 & b0 & ->).
  - destruct (list_of_length_4 (_data_pins self))
      as (p0 & p1 & p2 & p3 & Hp); [lia |].
    rewrite (send_byte_4pins self hw _ _ _ _ _ _ _ _ _ _ p0 p1 p2 p3 Hp H4).
    unfold byte_events, chunk_events. rewrite H4, Hp. reflexivity.
  - destruct (list_of_length_8 (_data_pins self))
      as (p0 & p1 & p2 & p3 & p4 & p5 & p6 & p7 & Hp); [lia |].
    rewrite (send_byte_8pins self hw _ _ _ _ _ _ _ _ _ _
               p0 p1 p2 p3 p4 p5 p6 p7 Hp H8).
    unfold byte_events, chunk_events. rewrite H8, Hp. reflexivity.
Qed.

(** ** Address payloads *)

Lemma byte_cases (x : Z) (P : Z -> Prop) :
  0 <= x < 256 ->
  (forall k, (k < 256)%nat -> P (Z.of_nat k)) ->
  P x.
Proof.
  intros Hx H. rewrite <- (Z2Nat.id x) by lia. apply H. lia.
Qed.

Lemma payload_ok_below (n : nat) :
  forallb (fun k => payload_ok (Z.of_nat k)) (seq 0 n) = true ->
  forall k, (k < n)%nat -> payload_ok (Z.of_nat k) = true.
Proof.
  intros H k Hk. rewrite forallb_forall in H. apply H.
  apply in_seq. lia.
Qed.

(** The payload built from a byte has 8 entries, each 0 or 1, and denotes
    that byte with its first entry as most significant bit. *)
Lemma addr_bits_byte (v : Z) :
  0 <= v < 256 ->
  length (addr_bits v) = 8%nat /\ bits_value (addr_bits v) = v /\
  Forall is_bit (addr_bits v).
Proof.
  intros Hv.
  assert (Hok : payload_ok v = true).
  { apply (byte_cases v (fun x => payload_ok x = true) Hv).
    apply payload_ok_below. vm_compute. reflexivity. }
  unfold payload_ok in Hok.
  apply andb_true_iff in Hok as [Hok Hbits].
  apply andb_true_iff in Hok as [Hlen Hval].
  split; [now apply Nat.eqb_eq | split; [now apply Z.eqb_eq |]].
  apply Forall_forall. intros b Hb.
  rewrite forallb_forall in Hbits. specialize (Hbits b Hb).
  apply orb_true_iff in Hbits as [H | H]; apply Z.eqb_eq in H;
    [now left | now right].
Qed.

Lemma land_lor_byte (a mask high : Z) :
  (mask = 0xff \/ mask = 0x7f) -> (high = 0x80 \/ high = 0x40) ->
  0 <= Z.lor (Z.land a mask) high < 256.
Proof.
  intros Hm Hh.
  assert (Hle : 0 <= Z.land a mask < 256).
  { destruct Hm as [-> | ->].
    - change 0xff with (Z.ones 8). rewrite Z.land_ones by lia.
      pose proof (Z.mod_pos_bound a (2 ^ 8)). lia.
    - change 0x7f with (Z.ones 7). rewrite Z.land_ones by lia.
      pose proof (Z.mod_pos_bound a (2 ^ 7)). lia. }
  set (m := Z.land a mask) in *. clearbody m.
  apply (byte_cases m (fun x => 0 <= Z.lor x high < 256) Hle).
  intros k Hk.
  assert (Hall : forallb (fun k => (0 <=? Z.lor (Z.of_nat k) high)
                                   && (Z.lor (Z.of_nat k) high <? 256))
                         (seq 0 256) = true)
    by (destruct Hh as [-> | ->]; vm_compute; reflexivity).
  rewrite forallb_forall in Hall.
  specialize (Hall k (proj2 (in_seq 256 0 k) (conj (Nat.le_0_l k) Hk))).
  apply andb_true_iff in Hall as [H1 H2].
  apply Z.leb_le in H1. apply Z.ltb_lt in H2. lia.
Qed.

(** [C6] An 8-bit payload [b7 .. b0] handed to [_send] goes out, on 4 data
    pins, as exactly two chunks, [b7 b6 b5 b4] first and then
    [b3 b2 b1 b0], each with data pin 0 carrying the first (most
    significant) bit of the chunk; on 8 data pins it goes out as exactly
    one chunk of 8.  Every chunk is: the data pins are set in order, the
    clock pin is raised, the settle delay is waited, the clock pin is
    lowered.  The register-select pin is set once, before the chunks. *)
Theorem send_splits_payload_by_bus_width :
  forall (self : HD44780) (hw : list event)
         (msg_type delay_us b7 b6 b5 b4 b3 b2 b1 b0 : Z),
    (forall p0 p1 p2 p3 : pin,
       _data_pins self = [p0; p1; p2; p3] ->
       _no_pins self = 4 ->
       _send [b7; b6; b5; b4; b3; b2; b1; b0] msg_type delay_us (self, hw) =
       (Ok tt,
        (self,
         hw ++ [PinValue (_rs_pin self) (int_eq msg_type MSG_TYPE_DATA);
                PinValue p0 b7; PinValue p1 b6;
                PinValue p2 b5; PinValue p3 b4;
                PinValue (_clk_pin self) 1; SleepUs delay_us;
                PinValue (_clk_pin self) 0;
                PinValue p0 b3; PinValue p1 b2;
                PinValue p2 b1; PinValue p3 b0;
                PinValue (_clk_pin self) 1; SleepUs delay_us;
                PinValue (_clk_pin self) 0])))
    /\
    (forall p0 p1 p2 p3 p4 p5 p6 p7 : pin,
       _data_pins self = [p0; p1; p2; p3; p4; p5; p6; p7] ->
       _no_pins self = 8 ->
       _send [b7; b6; b5; b4; b3; b2; b1; b0] msg_type delay_us (self, hw) =
       (Ok tt,
        (self,
         hw ++ [PinValue (_rs_pin self) (int_eq msg_type MSG_TYPE_DATA);
                PinValue p0 b7; PinValue p1 b6;
                PinValue p2 b5; PinValue p3 b4;
                PinValue p4 b3; PinValue p5 b2;
                PinValue p6 b1; PinValue p7 b0;
                PinValue (_clk_pin self) 1; SleepUs delay_us;
                PinValue (_clk_pin self) 0]))).
Proof.
  intros. split; intros.
  - now apply send_byte_4pins.
  - now apply send_byte_8pins.
Qed.

(** ** Writing text *)

Lemma getitem_nth {A} (l : list A) (i : Z) (d : A) :
  0 <= i < Z.of_nat (length l) ->
  getitem l i = Ok (nth (Z.to_nat i) l d).
Proof.
  intros Hi. unfold getitem.
  destruct (i <? 0) eqn:Hneg; [apply Z.ltb_lt in Hneg; lia |].
  rewrite Hneg.
  replace (Z.of_nat (length l) <=? i) with false
    by (symmetry; apply Z.leb_gt; lia).
  cbn [orb].
  destruct (nth_error l (Z.to_nat i)) as [x |] eqn:Hx.
  - now rewrite (nth_error_nth l (Z.to_nat i) d Hx).
  - apply nth_error_None in Hx. lia.
Qed.

Lemma format_08b_length (ch : N) :
  (ch < 256)%N -> length (format_08b ch) = 8%nat.
Proof.
  intros Hch.
  assert (Hall : forallb (fun k => (length (format_08b (N.of_nat k)) =? 8)%nat)
                         (seq 0 256) = true) by (vm_compute; reflexivity).
  rewrite forallb_forall in Hall.
  rewrite <- (Nnat.N2Nat.id ch). apply Nat.eqb_eq, Hall, in_seq. lia.
Qed.

Lemma ready_with_ch_idx self tbl v :
  write_ready self tbl -> write_ready (with_ch_idx self v) tbl.
Proof. intros H. exact H. Qed.

Lemma write_events_with_ch_idx self v tbl idx buf :
  write_events (with_ch_idx self v) tbl idx buf = write_events self tbl idx buf.
Proof.
  revert idx. induction buf as [| ch rest IH]; intros idx; cbn [write_events].
  - reflexivity.
  - rewrite IH. reflexivity.
Qed.

Lemma counter_after_with_ch_idx self v idx buf :
  counter_after (with_ch_idx self v) idx buf = counter_after self idx buf.
Proof.
  revert idx. induction buf as [| ch rest IH]; intros idx; cbn [counter_after].
  - reflexivity.
  - rewrite IH. reflexivity.
Qed.

(** One character: the row address goes out first when the counter is at
    the start of a row, then the character, then the counter advances. *)
Lemma write_char_spec self hw tbl ch :
  write_ready self tbl ->
  0 <= _ch_idx self < _width self * _height self ->
  (ch < 256)%N ->
  write_char ch (self, hw) =
  (Ok tt,
   (with_ch_idx self ((_ch_idx self + 1) mod (_width self * _height self)),
    hw ++ write_events self tbl (_ch_idx self) [ch])).
Proof.
  intros (Hbus & Hw & Hh & Htbl & Hlen) Hidx Hch.
  assert (HW : (_width self =? 0) = false) by (apply Z.eqb_neq; lia).
  assert (HWH : (_width self * _height self =? 0) = false)
    by (apply Z.eqb_neq; nia).
  unfold write_char, bind, get_self, lift, mod_, floordiv.
  cbn [fst snd]. rewrite HW.
  cbn [write_events]. rewrite app_nil_r.
  destruct (_ch_idx self mod _width self =? 0) eqn:Hpos.
  - rewrite Htbl. cbn [subscript].
    assert (Hrow : 0 <= _ch_idx self / _width self < Z.of_nat (length tbl)).
    { rewrite Hlen. split.
      - apply Z.div_pos; lia.
      - apply Z.div_lt_upper_bound; lia. }
    rewrite (getitem_nth tbl _ 0 Hrow).
    unfold set_ddram.
    pose proof (land_lor_byte (nth (Z.to_nat (_ch_idx self / _width self))
                                   tbl 0) 0xff 0x80
                  (or_introl eq_refl) (or_introl eq_refl)) as Hbyte.
    destruct (addr_bits_byte _ Hbyte) as (Hl & _ & _).
    rewrite (send_byte self hw MSG_TYPE_CMD _ Hbus Hl).
    rewrite (send_byte self _ MSG_TYPE_DATA _ Hbus (format_08b_length ch Hch)).
    cbn [fst snd]. rewrite HWH. unfold put_self. cbn [fst snd].
    now rewrite <- app_assoc.
  - unfold ret.
    rewrite (send_byte self hw MSG_TYPE_DATA _ Hbus (format_08b_length ch Hch)).
    cbn [fst snd]. rewrite HWH. unfold put_self. cbn [fst snd].
    reflexivity.
Qed.

Lemma write_events_app self tbl idx ch rest :
  write_events self tbl idx (ch :: rest) =
  write_events self tbl idx [ch]
  ++ write_events self tbl ((idx + 1) mod (_width self * _height self)) rest.
Proof.
  cbn [write_events]. rewrite app_nil_r. now rewrite <- !app_assoc.
Qed.

(** The loop of [write], from any counter value inside the screen. *)
Lemma write_loop_spec buf : forall self hw tbl,
  write_ready self tbl ->
  0 <= _ch_idx self < _width self * _height self ->
  latin1 buf ->
  for_each buf write_char (self, hw) =
  (Ok tt,
   (with_ch_idx self (counter_after self (_ch_idx self) buf),
    hw ++ write_events self tbl (_ch_idx self) buf)).
Proof.
  induction buf as [| ch rest IH]; intros self hw tbl Hready Hidx Hbuf.
  - cbn. rewrite app_nil_r. now destruct self.
  - inversion Hbuf as [| ? ? Hch Hrest]; subst.
    cbn [for_each]. unfold bind at 1.
    rewrite (write_char_spec self hw tbl ch Hready Hidx Hch).
    set (idx' := (_ch_idx self + 1) mod (_width self * _height self)).
    assert (Hidx' : 0 <= idx' < _width self * _height self).
    { destruct Hready as (_ & Hw & Hh & _). apply Z.mod_pos_bound. nia. }
    rewrite (IH (with_ch_idx self idx') _ tbl
               (ready_with_ch_idx self tbl idx' Hready) Hidx' Hrest).
    cbn [_ch_idx with_ch_idx].
    rewrite write_events_with_ch_idx, counter_after_with_ch_idx.
    rewrite (write_events_app self tbl (_ch_idx self) ch rest).
    fold idx'. now rewrite <- app_assoc.
Qed.

(** [write] on an object that can take it: it returns, the log grows by
    the home command and the characters with their row addresses, and the
    counter is the length of the text modulo the screen size. *)
Lemma write_spec buf self hw tbl :
  write_ready self tbl ->
  latin1 buf ->
  write buf (self, hw) =
  (Ok tt,
   (with_ch_idx self (counter_after self 0 buf),
    hw ++ byte_events self MSG_TYPE_CMD home_bits
       ++ write_events self tbl 0 buf)).
Proof.
  intros Hready Hbuf. unfold write, home, bind.
  change [0; 0; 0; 0; 0; 0; 1; 0] with home_bits.
  rewrite (send_byte self hw MSG_TYPE_CMD home_bits (proj1 Hready) eq_refl).
  unfold get_self, put_self. cbn [fst snd].
  assert (H0 : 0 <= _ch_idx (with_ch_idx self 0)
               < _width (with_ch_idx self 0) * _height (with_ch_idx self 0)).
  { destruct Hready as (_ & Hw & Hh & _). cbn. nia. }
  rewrite (write_loop_spec buf (with_ch_idx self 0) _ tbl
             (ready_with_ch_idx self tbl 0 Hready) H0 Hbuf).
  cbn [_ch_idx with_ch_idx].
  rewrite write_events_with_ch_idx, counter_after_with_ch_idx.
  now rewrite <- app_assoc.
Qed.

(** ** The clock pin after a run *)

Section ClockLow.

Variable c : pin.

Lemma shape_seq k1 k2 t1 t2 :
  shape k1 c t1 -> shape k2 c t2 -> shape (seq_effect k1 k2) c (t1 ++ t2).
Proof.
  intros H1 H2.
  assert (Hlow : forall t', t2 = t' ++ [PinValue c 0] ->
                 exists t'', t1 ++ t2 = t'' ++ [PinValue c 0]).
  { intros t' ->. exists (t1 ++ t'). now rewrite app_assoc. }
  destruct k1, k2; cbn in *; subst; rewrite ?app_nil_r; cbn; auto;
    try (destruct H2 as [t' H2]; now apply (Hlow t'));
    try (destruct H2 as [-> | [t' H2]];
         [rewrite app_nil_r; auto | try right; now apply (Hlow t')]).
Qed.

Lemma runs_bind {A B} k1 k2 (m : M A) (f : A -> M B) :
  runs_at c k1 m -> (forall a, runs_at c k2 (f a)) ->
  runs_at c (seq_effect k1 k2) (bind m f).
Proof.
  intros Hm Hf st b st' Hc Hn Hrun. unfold bind in Hrun.
  destruct (m st) as [[a | e] st1] eqn:Em; [| discriminate].
  destruct (Hm st a st1 Hc Hn Em) as ([Hclk Hno] & t1 & Ht1 & Hs1).
  assert (Hc1 : _clk_pin (fst st1) = c) by congruence.
  assert (Hn1 : 0 <= _no_pins (fst st1)) by (rewrite Hno; exact Hn).
  destruct (Hf a st1 b st' Hc1 Hn1 Hrun) as ([Hclk' Hno'] & t2 & Ht2 & Hs2).
  split; [split; congruence |].
  exists (t1 ++ t2). split; [| now apply shape_seq].
  rewrite Ht2, Ht1. now rewrite app_assoc.
Qed.

Lemma runs_weaken {A} k (m : M A) : runs_at c k m -> runs_at c Grows m.
Proof.
  intros Hm st a st' Hc Hn Hrun.
  destruct (Hm st a st' Hc Hn Hrun) as (Hw & t & Ht & _).
  split; [exact Hw |]. now exists t.
Qed.

Lemma runs_low_weaken {A} (m : M A) :
  runs_at c Low m -> runs_at c LowOrQuiet m.
Proof.
  intros Hm st a st' Hc Hn Hrun.
  destruct (Hm st a st' Hc Hn Hrun) as (Hw & t & Ht & Hs).
  split; [exact Hw |]. exists t. split; [exact Ht | now right].
Qed.

Ltac quiet_run :=
  intros ? ? ? _ _ Hrun; inversion Hrun; subst;
  split; [split; reflexivity |]; exists []; split;
  [now rewrite app_nil_r | reflexivity].

Lemma runs_ret {A} (a : A) : runs_at c Quiet (ret a).
Proof. quiet_run. Qed.

Lemma runs_lift {A} (r : result A) : runs_at c Quiet (lift r).
Proof. unfold lift. quiet_run. Qed.

Lemma runs_get_self : runs_at c Quiet get_self.
Proof. quiet_run. Qed.

Lemma runs_raise {A} k (e : exn) : runs_at c k (@raise A e).
Proof. intros st a st' _ _ Hrun. discriminate Hrun. Qed.

Lemma runs_emit e : runs_at c Grows (emit e).
Proof.
  intros st a st' _ _ Hrun. inversion Hrun; subst.
  split; [split; reflexivity |]. now exists [e].
Qed.

Lemma runs_clock_down : runs_at c Low (pin_value c 0).
Proof.
  intros st a st' _ _ Hrun. inversion Hrun; subst.
  split; [split; reflexivity |].
  exists [PinValue c 0]. split; [reflexivity | now exists []].
Qed.

(** Storing a new counter or mode value writes nothing to the pins. *)
Lemma runs_put_self (s : HD44780) :
  forall st a st',
    same_wiring (fst st) s ->
    put_self s st = (Ok a, st') ->
    same_wiring (fst st) (fst st') /\
    exists t, snd st' = snd st ++ t /\ shape Quiet c t.
Proof.
  intros st a st' Hw Hrun. inversion Hrun; subst. cbn.
  split; [exact Hw |]. exists []. now rewrite app_nil_r.
Qed.

Lemma runs_for_each_grows {A} (xs : list A) (body : A -> M unit) :
  (forall x, runs_at c Grows (body x)) -> runs_at c Grows (for_each xs body).
Proof.
  intros Hb. induction xs as [| x xs IH]; cbn [for_each].
  - apply (runs_weaken Quiet), runs_ret.
  - apply (runs_bind Grows Grows); auto.
Qed.

Lemma runs_for_each_low {A} (xs : list A) (body : A -> M unit) :
  (forall x, runs_at c Low (body x)) ->
  runs_at c LowOrQuiet (for_each xs body).
Proof.
  intros Hb. induction xs as [| x xs IH]; cbn [for_each].
  - intros st a st' _ _ Hrun. inversion Hrun; subst.
    split; [split; reflexivity |]. exists [].
    split; [now rewrite app_nil_r | now left].
  - apply runs_low_weaken.
    apply (runs_bind Low LowOrQuiet); auto.
Qed.

Lemma runs_for_each_low_cons {A} (x : A) (xs : list A) (body : A -> M unit) :
  (forall x, runs_at c Low (body x)) ->
  runs_at c Low (for_each (x :: xs) body).
Proof.
  intros Hb. cbn [for_each].
  apply (runs_bind Low LowOrQuiet); auto.
  intros _. now apply runs_for_each_low.
Qed.

Lemma runs_set_data_pins bit_data i :
  runs_at c Grows (set_data_pins bit_data i).
Proof.
  unfold set_data_pins.
  apply (runs_bind Quiet Grows); [apply runs_get_self | intros self].
  apply (runs_bind Quiet Grows); [apply runs_lift | intros bs].
  apply runs_for_each_grows. intros b.
  apply (runs_bind Quiet Grows); [apply runs_lift | intros p].
  apply (runs_bind Quiet Grows); [apply runs_lift | intros v].
  apply runs_emit.
Qed.

End ClockLow.

Lemma range_nonempty (stop step : Z) (l : list Z) :
  0 < stop -> 0 <= step -> range 0 stop step = Ok l -> l <> [].
Proof.
  intros Hstop Hstep. unfold range.
  destruct (step =? 0) eqn:E0; [discriminate |].
  apply Z.eqb_neq in E0.
  replace (0 <? step) with true by (symmetry; apply Z.ltb_lt; lia).
  intros H. inversion H; subst; clear H.
  assert (1 <= (stop - 0 + step - 1) / step).
  { apply Z.div_le_lower_bound; lia. }
  destruct (Z.to_nat ((stop - 0 + step - 1) / step)) eqn:En; [lia |].
  cbn. discriminate.
Qed.

(** A transfer that returns has pulsed the clock at least once and left
    it low, and has not touched the object. *)
Lemma runs_send (c : pin) bit_data msg_type delay_us :
  bit_data <> [] ->
  runs_at c Low (_send bit_data msg_type delay_us).
Proof.
  intros Hne [self hw] a st' Hc Hn Hrun. cbn [fst snd] in *. subst c.
  assert (Hlen : 0 < Z.of_nat (length bit_data))
    by (destruct bit_data; [congruence | cbn; lia]).
  set (body := fun i : Z =>
         set_data_pins bit_data i ;;
         pin_value (_clk_pin self) 1 ;;
         sleep_us delay_us ;;
         pin_value (_clk_pin self) 0).
  assert (Hbody : forall x, runs_at (_clk_pin self) Low (body x)).
  { intros x. unfold body.
    apply (runs_bind _ Grows Low); [apply runs_set_data_pins | intros _].
    apply (runs_bind _ Grows Low); [apply runs_emit | intros _].
    apply (runs_bind _ Grows Low); [apply runs_emit | intros _].
    apply runs_clock_down. }
  unfold _send, bind in Hrun.
  cbn [get_self pin_value emit lift fst snd] in Hrun.
  destruct (range 0 (Z.of_nat (length bit_data)) (_no_pins self))
    as [chunks | e] eqn:Er; [| discriminate].
  pose proof (range_nonempty _ _ _ Hlen Hn Er) as Hch.
  destruct chunks as [| i chunks]; [congruence |].
  destruct (runs_for_each_low_cons (_clk_pin self) i chunks body Hbody
              (self, hw ++ [PinValue (_rs_pin self)
                                     (int_eq msg_type MSG_TYPE_DATA)])
              a st' eq_refl Hn Hrun)
    as (Hw & t & Ht & t' & ->).
  split; [exact Hw |]. cbn [fst snd] in *.
  exists ((PinValue (_rs_pin self) (int_eq msg_type MSG_TYPE_DATA) :: t')
          ++ [PinValue (_clk_pin self) 0]).
  split; [| now eexists].
  rewrite Ht. now rewrite <- app_assoc.
Qed.

Lemma pos_digits_nonempty (p : positive) : forall acc, pos_digits p acc <> [].
Proof.
  induction p as [q IH | q IH |]; intros acc; cbn; [apply IH | apply IH |].
  discriminate.
Qed.

Lemma format_08b_nonempty (ch : N) : format_08b ch <> [].
Proof.
  unfold format_08b. intros H. apply app_eq_nil in H as [_ H].
  destruct ch as [| p]; [discriminate |].
  now apply pos_digits_nonempty in H.
Qed.

Section ClockLowOps.

Variable c : pin.

Lemma runs_quiet_weaken {A} (m : M A) :
  runs_at c Quiet m -> runs_at c LowOrQuiet m.
Proof.
  intros Hm st a st' Hc Hn Hrun.
  destruct (Hm st a st' Hc Hn Hrun) as (Hw & t & Ht & Hs).
  split; [exact Hw |]. exists t. split; [exact Ht | now left].
Qed.

(** [self.x = v] after reading [self]: nothing goes to the pins. *)
Lemma runs_update (f : HD44780 -> HD44780) :
  (forall s, same_wiring s (f s)) ->
  runs_at c Quiet (self <- get_self ;; put_self (f self)).
Proof.
  intros Hf st a st' _ _ Hrun. inversion Hrun; subst. cbn.
  split; [apply Hf |]. exists []. now rewrite app_nil_r.
Qed.

Lemma runs_set_8bit_mode : runs_at c Low set_8bit_mode.
Proof.
  unfold set_8bit_mode.
  apply (runs_bind c Low Quiet).
  - apply runs_for_each_low_cons. intros _. now apply runs_send.
  - intros _. apply runs_update. intros s. now split.
Qed.

Lemma runs_set_4bit_mode : runs_at c Low set_4bit_mode.
Proof.
  unfold set_4bit_mode.
  apply (runs_bind c Quiet Low); [apply runs_get_self | intros self].
  apply (runs_bind c LowOrQuiet Low).
  - destruct (_mode self =? MODE_8BIT).
    + apply runs_quiet_weaken, runs_ret.
    + apply runs_low_weaken, runs_set_8bit_mode.
  - intros _. now apply runs_send.
Qed.

Lemma runs_set_ddram addr : runs_at c Low (set_ddram addr).
Proof.
  unfold set_ddram. apply runs_send. unfold addr_bits. cbn [map].
  discriminate.
Qed.

Lemma runs_write_char ch : runs_at c Low (write_char ch).
Proof.
  intros [self hw] a st' Hc Hn Hrun. cbn [fst snd] in *.
  unfold write_char in Hrun. unfold bind at 1 2 in Hrun.
  cbn [get_self lift fst snd] in Hrun.
  destruct (mod_ (_ch_idx self) (_width self)) as [line_pos | e];
    [| discriminate].
  unfold bind at 1 in Hrun.
  assert (Hpre : runs_at c LowOrQuiet
            (if line_pos =? 0
             then line_no <- lift (floordiv (_ch_idx self) (_width self)) ;;
                  addr <- lift (subscript (_line_addr self) line_no) ;;
                  set_ddram addr
             else ret tt)).
  { destruct (line_pos =? 0).
    - apply runs_low_weaken.
      apply (runs_bind c Quiet Low); [apply runs_lift | intros line_no].
      apply (runs_bind c Quiet Low); [apply runs_lift | intros addr].
      apply runs_set_ddram.
    - apply runs_quiet_weaken, runs_ret. }
  match type of Hrun with
  | (let (_, _) := ?m (self, hw) in _) = _ =>
      destruct (m (self, hw)) as [[u | e] [s1 h1]] eqn:E1; [| discriminate];
      destruct (Hpre (self, hw) u (s1, h1) Hc Hn E1)
        as ([Hclk1 Hno1] & t1 & Ht1 & Hs1)
  end.
  cbn [fst snd] in *.
  unfold bind at 1 in Hrun.
  destruct (_send (format_08b ch) MSG_TYPE_DATA DELAY_US (s1, h1))
    as [[u2 | e] [s2 h2]] eqn:E2; [| discriminate].
  pose proof (format_08b_nonempty ch) as Hfmt.
  destruct (runs_send c _ MSG_TYPE_DATA DELAY_US Hfmt (s1, h1) u2 (s2, h2))
    as ([Hclk2 Hno2] & t2 & Ht2 & t2' & ->); cbn [fst snd];
    [congruence | lia | exact E2 |].
  cbn [fst snd] in *.
  unfold bind in Hrun. cbn [get_self lift fst snd] in Hrun.
  destruct (mod_ (_ch_idx s2 + 1) (_width s2 * _height s2)) as [idx | e];
    [| discriminate].
  inversion Hrun; subst; clear Hrun. cbn [fst snd].
  split; [split; cbn; congruence |].
  exists ((t1 ++ t2') ++ [PinValue (_clk_pin self) 0]).
  split; [| now eexists].
  now rewrite <- !app_assoc.
Qed.

Lemma runs_write buf : runs_at c Low (write buf).
Proof.
  intros [self hw] a st' Hc Hn Hrun. cbn [fst snd] in *.
  unfold write in Hrun. unfold bind at 1 in Hrun.
  destruct (home (self, hw)) as [[u | e] [s1 h1]] eqn:E1; [| discriminate].
  assert (Hne : home_bits <> []) by discriminate.
  destruct (runs_send c _ MSG_TYPE_CMD DELAY_US Hne
              (self, hw) u (s1, h1) Hc Hn E1)
    as ([Hclk1 Hno1] & t1 & Ht1 & t1' & ->).
  cbn [fst snd] in *.
  unfold bind at 1 2 in Hrun. cbn [get_self put_self fst snd] in Hrun.
  destruct (runs_for_each_low c buf write_char runs_write_char
              (with_ch_idx s1 0, h1) a st')
    as ([Hclk2 Hno2] & t2 & Ht2 & Hs2); cbn [fst snd];
    [cbn; congruence | cbn; lia | exact Hrun |].
  cbn [fst snd with_ch_idx _clk_pin _no_pins] in *.
  split; [split; congruence |].
  destruct Hs2 as [-> | [t2' ->]].
  - exists (t1' ++ [PinValue c 0]). split; [| now eexists].
    rewrite Ht2, Ht1. now rewrite app_nil_r.
  - exists ((t1' ++ [PinValue c 0] ++ t2') ++ [PinValue c 0]).
    split; [| now eexists].
    rewrite Ht2, Ht1. now rewrite <- !app_assoc.
Qed.

(** Every public operation that returns has left the clock pin low. *)
Lemma runs_op op : runs_at c Low (run_op op).
Proof.
  destruct op; cbn [run_op].
  - unfold clear. apply runs_send. discriminate.
  - unfold home. apply runs_send. discriminate.
  - unfold shift. apply runs_send. discriminate.
  - apply runs_write.
  - apply runs_set_8bit_mode.
  - apply runs_set_4bit_mode.
  - unfold set_display_opts. apply runs_send. discriminate.
  - unfold set_entry_mode. apply runs_send. discriminate.
  - unfold set_function.
    apply (runs_bind c Quiet Low); [apply runs_get_self | intros self].
    now apply runs_send.
  - apply runs_set_ddram.
  - unfold set_cgram. apply runs_send. unfold addr_bits. cbn [map].
    discriminate.
Qed.

End ClockLowOps.

(** ** Construction *)

Lemma nibble_on_4pins self hw msg_type bits :
  bus_ready self -> _no_pins self = 4 -> length bits = 4%nat ->
  _send bits msg_type DELAY_US (self, hw) =
  (Ok tt, (self, hw ++ nibble_events self msg_type bits)).
Proof.
  intros [Hlen _] H4 Hb.
  destruct (list_of_length_4 bits Hb) as (b3 & b2 & b1 & b0 & ->).
  destruct (list_of_length_4 (_data_pins self))
    as (p0 & p1 & p2 & p3 & Hp); [lia |].
  rewrite (send_nibble_4pins self hw _ _ _ _ _ _ p0 p1 p2 p3 Hp H4).
  unfold nibble_events, chunk_events. rewrite Hp. reflexivity.
Qed.

Lemma set_8bit_mode_4pins self hw :
  bus_ready self -> _no_pins self = 4 ->
  set_8bit_mode (self, hw) =
  (Ok tt,
   (with_mode self MODE_8BIT,
    hw ++ nibble_events self MSG_TYPE_CMD reset_bits
       ++ nibble_events self MSG_TYPE_CMD reset_bits
       ++ nibble_events self MSG_TYPE_CMD reset_bits)).
Proof.
  intros Hbus H4. unfold set_8bit_mode. cbn [for_each]. unfold bind.
  change [0; 0; 1; 1] with reset_bits.
  rewrite !(nibble_on_4pins self _ MSG_TYPE_CMD reset_bits Hbus H4 eq_refl).
  cbn. now rewrite <- !app_assoc.
Qed.

Lemma set_4bit_mode_4pins self hw :
  bus_ready self -> _no_pins self = 4 -> _mode self = MODE_8BIT ->
  set_4bit_mode (self, hw) =
  (Ok tt, (self, hw ++ nibble_events self MSG_TYPE_CMD switch_bits)).
Proof.
  intros Hbus H4 Hm. unfold set_4bit_mode, bind. cbn [get_self fst snd].
  rewrite Hm. cbn [Z.eqb MODE_8BIT Pos.eqb ret].
  change [0; 0; 1; 0] with switch_bits.
  now rewrite (nibble_on_4pins self _ MSG_TYPE_CMD switch_bits Hbus H4 eq_refl).
Qed.

(** With 4 data pins and a height the line table knows, the constructor
    returns the object and has sent, in this order: the reset command three
    times, the switch to 4 bits once, clear, and function set with the line
    bit from the height and the font bit 0. *)
Lemma init_4pins host_pins clk rs rw width height font hw line_addr :
  length host_pins = 4%nat ->
  _init_line_addrs width height = Ok line_addr ->
  let self := built host_pins clk rs rw width height line_addr in
  __init__ (Some host_pins) clk rs rw width height font hw =
  (Ok self,
   hw ++ init_events host_pins clk rs rw
      ++ nibble_events self MSG_TYPE_CMD reset_bits
      ++ nibble_events self MSG_TYPE_CMD reset_bits
      ++ nibble_events self MSG_TYPE_CMD reset_bits
      ++ nibble_events self MSG_TYPE_CMD switch_bits
      ++ byte_events self MSG_TYPE_CMD clear_bits
      ++ byte_events self MSG_TYPE_CMD
           [0; 0; 1; 0; (if height =? 1 then 0 else 1); 0; 1; 1]).
Proof.
  intros Hlen Hline self.
  assert (Hbus0 : forall m, bus_ready (with_mode self m)).
  { intros m. split; cbn; [reflexivity | left; now rewrite Hlen]. }
  assert (H40 : forall m, _no_pins (with_mode self m) = 4)
    by (intros m; cbn; now rewrite Hlen).
  unfold __init__, init_sequence. rewrite Hline.
  set (hw1 := match rw with
              | Some p => (hw ++ [PinInit rs] ++ [PinInit clk]
                              ++ map PinInit host_pins) ++ [PinInit p]
              | None => hw ++ [PinInit rs] ++ [PinInit clk]
                           ++ map PinInit host_pins
              end).
  assert (Hhw1 : hw1 = hw ++ init_events host_pins clk rs rw).
  { unfold hw1, init_events. destruct rw; cbn; rewrite <- ?app_assoc; cbn;
      rewrite ?app_nil_r; reflexivity. }
  unfold bind at 1.
  change (mkHD44780 rs clk host_pins 0 width height line_addr
            (Z.of_nat (length host_pins)) MODE_UNKNOWN 0 rw)
    with (with_mode self MODE_UNKNOWN).
  rewrite (set_8bit_mode_4pins _ hw1 (Hbus0 _) (H40 _)).
  unfold bind at 1. cbn [get_self fst snd].
  replace (_no_pins (with_mode (with_mode self MODE_UNKNOWN) MODE_8BIT) =? 8)
    with false by (cbn; rewrite Hlen; reflexivity).
  replace (_no_pins (with_mode (with_mode self MODE_UNKNOWN) MODE_8BIT) =? 4)
    with true by (cbn; rewrite Hlen; reflexivity).
  change (with_mode (with_mode self MODE_UNKNOWN) MODE_8BIT) with self.
  unfold bind at 1.
  rewrite (set_4bit_mode_4pins self _ (Hbus0 MODE_8BIT) (H40 MODE_8BIT)
             eq_refl).
  unfold bind at 1. unfold clear.
  rewrite (send_byte self _ MSG_TYPE_CMD clear_bits (Hbus0 MODE_8BIT) eq_refl).
  unfold bind at 1. cbn [get_self fst snd].
  change (_height self) with height.
  assert (Hfn : forall n h0,
            set_function n 0 (self, h0) =
            (Ok tt, (self, h0 ++ byte_events self MSG_TYPE_CMD
                                   [0; 0; 1; 0; n; 0; 1; 1]))).
  { intros n h0. unfold set_function, bind. cbn [get_self fst snd].
    replace (int_eq (_no_pins self) 8) with 0
      by (cbn; rewrite Hlen; reflexivity).
    now rewrite (send_byte self h0 MSG_TYPE_CMD [0; 0; 1; 0; n; 0; 1; 1]
                   (Hbus0 MODE_8BIT) eq_refl). }
  destruct (height =? 1); rewrite Hfn; rewrite Hhw1;
    change (nibble_events (with_mode self MODE_UNKNOWN))
      with (nibble_events self);
    now rewrite <- !app_assoc.
Qed.

(** ** Payloads shorter than the bus *)

Lemma getitem_out_of_range {A} (l : list A) (i : Z) :
  Z.of_nat (length l) <= i -> getitem l i = Raise IndexError.
Proof.
  intros Hi. unfold getitem.
  replace (i <? 0) with false by (symmetry; apply Z.ltb_ge; lia).
  replace (Z.of_nat (length l) <=? i) with true
    by (symmetry; apply Z.leb_le; lia).
  now rewrite orb_true_r.
Qed.

Lemma range_unit (n : nat) :
  range 0 (Z.of_nat n) 1 = Ok (map Z.of_nat (seq 0 n)).
Proof.
  unfold range. cbn [Z.eqb Z.ltb Z.compare].
  replace ((Z.of_nat n - 0 + 1 - 1) / 1) with (Z.of_nat n)
    by (rewrite Z.div_1_r; lia).
  rewrite Nat2Z.id. f_equal. apply map_ext. intros k. lia.
Qed.

Lemma range_one_chunk (len step : Z) :
  0 < len <= step -> range 0 len step = Ok [0].
Proof.
  intros H. unfold range.
  replace (step =? 0) with false by (symmetry; apply Z.eqb_neq; lia).
  replace (0 <? step) with true by (symmetry; apply Z.ltb_lt; lia).
  replace ((len - 0 + step - 1) / step) with 1
    by (apply (Z.div_unique _ _ 1 (len - 1)); lia).
  reflexivity.
Qed.

(** The inner loop from data pin [a] on: it runs out of payload bits
    before it runs out of pins. *)
Lemma set_pins_from_short (pins : list pin) (bits : list Z) (m : nat) :
  forall (a : nat) (self : HD44780) (hw : list event),
    (a <= length bits)%nat ->
    (a + m = length pins)%nat ->
    (length bits < length pins)%nat ->
    fst (for_each (map Z.of_nat (seq a m))
           (fun b =>
              p <- lift (getitem pins b) ;;
              v <- lift (getitem bits (0 + b)) ;;
              pin_value p v) (self, hw)) = Raise IndexError.
Proof.
  induction m as [| m IH]; intros a self hw Ha Ham Hlt; [lia |].
  cbn [seq map for_each]. unfold bind at 1 2. unfold lift at 1.
  rewrite (getitem_nth pins (Z.of_nat a) EmptyString) by lia.
  unfold bind at 1. unfold lift at 1. cbn [fst snd].
  destruct (Nat.eq_dec a (length bits)) as [Heq | Hne].
  - rewrite getitem_out_of_range by lia. reflexivity.
  - rewrite (getitem_nth bits (0 + Z.of_nat a) 0) by lia.
    unfold pin_value, emit. cbn [fst snd].
    apply IH; lia.
Qed.

Lemma set_data_pins_short self hw bits :
  _no_pins self = Z.of_nat (length (_data_pins self)) ->
  (length bits < length (_data_pins self))%nat ->
  fst (set_data_pins bits 0 (self, hw)) = Raise IndexError.
Proof.
  intros Hn Hlt. unfold set_data_pins. unfold bind at 1 2.
  cbn [get_self fst snd]. rewrite Hn, range_unit. unfold lift at 1.
  apply set_pins_from_short; [lia | reflexivity | exact Hlt].
Qed.

(** A payload shorter than the bus is wide never goes out: the transfer
    raises IndexError before the clock pin is touched. *)
Lemma send_short_payload self hw bits msg_type delay_us :
  _no_pins self = Z.of_nat (length (_data_pins self)) ->
  (0 < length bits < length (_data_pins self))%nat ->
  fst (_send bits msg_type delay_us (self, hw)) = Raise IndexError.
Proof.
  intros Hn Hlt. unfold _send. unfold bind at 1 2 3.
  cbn [get_self pin_value emit fst snd].
  rewrite range_one_chunk by lia. unfold lift at 1.
  cbn [for_each]. unfold bind at 1 2.
  pose proof (set_data_pins_short self
                (hw ++ [PinValue (_rs_pin self)
                                 (int_eq msg_type MSG_TYPE_DATA)])
                bits Hn (proj2 Hlt)) as Hraise.
  destruct (set_data_pins bits 0 _) as [[u | e] st1]; cbn in Hraise.
  - discriminate.
  - now inversion Hraise.
Qed.

Lemma bind_raises {A B} (m : M A) (k : A -> M B) st e :
  fst (m st) = Raise e -> fst (bind m k st) = Raise e.
Proof.
  intros H. unfold bind. destruct (m st) as [[a | e'] st1]; cbn in H.
  - discriminate.
  - now inversion H.
Qed.

Lemma blind_init_sequence : log_blind init_sequence.
Proof.
  unfold init_sequence, set_8bit_mode, set_4bit_mode, clear, set_function.
  blind.
Qed.

(** The first reset of the constructor on a bus wider than 4 pins. *)
Lemma init_sequence_wide_bus self hw :
  _no_pins self = Z.of_nat (length (_data_pins self)) ->
  (4 < length (_data_pins self))%nat ->
  fst (init_sequence (self, hw)) = Raise IndexError.
Proof.
  intros Hn Hlt. unfold init_sequence, set_8bit_mode.
  do 2 apply bind_raises. cbn [for_each]. apply bind_raises.
  apply send_short_payload; cbn [length]; [exact Hn | lia].
Qed.

(** The constructor on a bus narrower than 4 pins. *)
Lemma init_sequence_narrow_bus self hw :
  _no_pins self = Z.of_nat (length (_data_pins self)) ->
  (length (_data_pins self) < 4)%nat ->
  fst (init_sequence (self, hw)) =
  match length (_data_pins self) with
  | 0%nat => Raise ValueError
  | 3%nat => Raise IndexError
  | _ => Raise (Exception "Number of pins must be 4 or 8!")
  end.
Proof.
  intros Hn Hlt. rewrite blind_init_sequence. unfold shift_log. cbn [fst].
  destruct self as [rs clk pins idx w h la n md lc rw]. cbn in Hn, Hlt |- *.
  subst n.
  destruct pins as [| p0 [| p1 [| p2 [| p3 rest]]]]; cbn in Hlt; try lia;
    vm_compute; reflexivity.
Qed.

(** What the constructor raises for each number of data pins other than
    4, when the height is one the line table knows. *)
Lemma init_pin_count host_pins clk rs rw width height font hw line_addr :
  _init_line_addrs width height = Ok line_addr ->
  length host_pins <> 4%nat ->
  fst (__init__ (Some host_pins) clk rs rw width height font hw) =
  match length host_pins with
  | 0%nat => Raise ValueError
  | 1%nat | 2%nat => Raise (Exception "Number of pins must be 4 or 8!")
  | _ => Raise IndexError
  end.
Proof.
  intros Hline Hne. unfold __init__. rewrite Hline.
  match goal with
  | |- fst (let (_, _) := init_sequence (?s, ?h) in _) = _ =>
      set (self := s); set (hw1 := h)
  end.
  assert (Hn : _no_pins self = Z.of_nat (length (_data_pins self)))
    by reflexivity.
  assert (Hseq : fst (init_sequence (self, hw1)) =
                 match length host_pins with
                 | 0%nat => Raise ValueError
                 | 1%nat | 2%nat =>
                     Raise (Exception "Number of pins must be 4 or 8!")
                 | _ => Raise IndexError
                 end).
  { destruct (Nat.lt_ge_cases (length host_pins) 4) as [Hlt | Hge].
    - rewrite (init_sequence_narrow_bus self hw1 Hn Hlt). cbn [_data_pins self].
      destruct (length host_pins) as [| [| [| [| k]]]]; try reflexivity; lia.
    - rewrite (init_sequence_wide_bus self hw1 Hn) by (cbn; lia).
      destruct (length host_pins) as [| [| [| [| k]]]]; try reflexivity; lia. }
  destruct (init_sequence (self, hw1)) as [[u | e] [s1 h1]]; cbn in Hseq.
  - destruct (length host_pins) as [| [| [| n]]]; discriminate.
  - cbn [fst].
    destruct (length host_pins) as [| [| [| n]]]; now inversion Hseq.
Qed.

(** A height the line table does not know stops the constructor before
    any transfer, whatever the pins. *)
Lemma init_bad_height host_pins clk rs rw width height font hw :
  height <> 1 -> height <> 2 -> height <> 4 ->
  __init__ host_pins clk rs rw width height font hw =
  (Raise (Exception "No DDRAM -> pixel mapping for this ratio!"),
   hw ++ [PinInit rs] ++ [PinInit clk]
      ++ map PinInit (match host_pins with
                      | None => default_host_pins
                      | Some l => l
                      end)).
Proof.
  intros H1 H2 H4. unfold __init__, _init_line_addrs.
  apply Z.eqb_neq in H1, H2, H4. now rewrite H1, H2, H4.
Qed.

(** ** Properties of the driver *)

(** [C1] With 8 data pins the constructor does not return an object: for
    every height the line table knows, the first reset transfer reads
    beyond its 4-bit payload and the constructor raises IndexError. *)
Theorem init_8_data_pins_raises :
  forall (host_pins : list pin) (clk rs : pin) (rw : option pin)
         (width height font : Z) (hw : list event),
    length host_pins = 8%nat ->
    height = 1 \/ height = 2 \/ height = 4 ->
    fst (__init__ (Some host_pins) clk rs rw width height font hw) =
    Raise IndexError.
Proof.
  intros host_pins clk rs rw width height font hw Hlen Hh.
  assert (Hline : exists la, _init_line_addrs width height = Ok la)
    by (destruct Hh as [-> | [-> | ->]]; eexists; reflexivity).
  destruct Hline as [la Hline].
  rewrite (init_pin_count host_pins clk rs rw width height font hw la Hline)
    by (rewrite Hlen; discriminate).
  now rewrite Hlen.
Qed.

Lemma init_8_data_pins_raises_witness :
  fst (__init__ (Some eight_host_pins) "GP0" "GP4" None 16 2 FONT_5x8 []) =
  Raise IndexError.
Proof.
  apply init_8_data_pins_raises; [reflexivity | right; left; reflexivity].
Defined.

(** The constructor with every parameter at its default. *)
Lemma init_default (hw : list event) :
  __init__ None "GP0" "GP4" None 16 2 FONT_5x8 hw =
  (Ok lcd_16x2,
   hw ++ init_events default_host_pins "GP0" "GP4" None
      ++ nibble_events lcd_16x2 MSG_TYPE_CMD reset_bits
      ++ nibble_events lcd_16x2 MSG_TYPE_CMD reset_bits
      ++ nibble_events lcd_16x2 MSG_TYPE_CMD reset_bits
      ++ nibble_events lcd_16x2 MSG_TYPE_CMD switch_bits
      ++ byte_events lcd_16x2 MSG_TYPE_CMD clear_bits
      ++ byte_events lcd_16x2 MSG_TYPE_CMD [0; 0; 1; 0; 1; 0; 1; 1]).
Proof.
  exact (init_4pins default_host_pins "GP0" "GP4" None 16 2 FONT_5x8 hw
           (PyTuple [0x00; 0x40]) eq_refl eq_refl).
Qed.

Lemma clear_bus_ready self hw :
  bus_ready self ->
  clear (self, hw) =
  (Ok tt, (self, hw ++ byte_events self MSG_TYPE_CMD clear_bits)).
Proof. intros Hbus. unfold clear. now apply send_byte. Qed.

(** [C2] As the claim has it, [clear] would bring the counter to 0.  On
    the default display, after [write] of one character the counter is 1,
    and it still is 1 after [clear]. *)
Lemma clear_after_write_counter_is_1 :
  exists hw0 st1 st2,
    __init__ None "GP0" "GP4" None 16 2 FONT_5x8 [] = (Ok lcd_16x2, hw0) /\
    write [65%N] (lcd_16x2, hw0) = (Ok tt, st1) /\
    clear st1 = (Ok tt, st2) /\
    _ch_idx (fst st2) = 1 /\ _ch_idx (fst st2) <> 0.
Proof.
  eexists. eexists. eexists.
  split; [apply init_default |].
  split; [apply (write_spec [65%N] lcd_16x2 _ [0x00; 0x40]) |].
  - repeat split; try reflexivity. left; reflexivity.
  - repeat constructor.
  - split; [apply clear_bus_ready |].
    + split; [reflexivity | left; reflexivity].
    + cbn. split; [reflexivity | discriminate].
Qed.

(** [C2] [clear] sends the clear command and changes nothing in the
    object: the counter [_ch_idx] after it is the counter before it. *)
Theorem clear_keeps_counter :
  forall (self : HD44780) (hw : list event),
    bus_ready self ->
    clear (self, hw) =
    (Ok tt, (self, hw ++ byte_events self MSG_TYPE_CMD clear_bits)) /\
    _ch_idx (fst (snd (clear (self, hw)))) = _ch_idx self.
Proof.
  intros self hw Hbus.
  pose proof (clear_bus_ready self hw Hbus) as H.
  split; [exact H | now rewrite H].
Qed.

Lemma clear_keeps_counter_witness :
  _ch_idx (fst (snd (clear (with_ch_idx lcd_16x2 1, [])))) = 1.
Proof.
  refine (proj2 (clear_keeps_counter (with_ch_idx lcd_16x2 1) [] _)).
  split; [reflexivity | left; reflexivity].
Defined.

(** Heights 2 and 4 give the line tables of the two- and four-row
    displays, whatever the width. *)
Lemma line_addrs_height_2_4 (w : Z) :
  _init_line_addrs w 2 = Ok (PyTuple [0x00; 0x40]) /\
  _init_line_addrs w 4 = Ok (PyTuple [0x00; 0x40; 0x14; 0x54]).
Proof. split; reflexivity. Qed.

(** [C3] For height 1 the line-address computation returns the bare
    integer 0 and not a one-entry sequence: [(self.DDRAM0_START)] is a
    parenthesised int, so the result has no entries to index. *)
Theorem line_addrs_height_1_is_bare_int :
  forall w : Z,
    _init_line_addrs w 1 = Ok (PyInt 0x00) /\
    _init_line_addrs w 1 <> Ok (PyTuple [0x00]) /\
    subscript (PyInt 0x00) 0 = Raise TypeError.
Proof.
  intros w. repeat split. discriminate.
Qed.

(** [C4] The constructor called with the 5x10 font sends, as its last
    command, function set with font bit 0: the [font] argument is not
    read, and the log is the one the 5x8 font gives. *)
Theorem init_font_5x10_sends_font_bit_0 :
  forall hw : list event,
    __init__ None "GP0" "GP4" None 16 2 FONT_5x10 hw =
    (Ok lcd_16x2,
     hw ++ init_events default_host_pins "GP0" "GP4" None
        ++ nibble_events lcd_16x2 MSG_TYPE_CMD reset_bits
        ++ nibble_events lcd_16x2 MSG_TYPE_CMD reset_bits
        ++ nibble_events lcd_16x2 MSG_TYPE_CMD reset_bits
        ++ nibble_events lcd_16x2 MSG_TYPE_CMD switch_bits
        ++ byte_events lcd_16x2 MSG_TYPE_CMD clear_bits
        ++ byte_events lcd_16x2 MSG_TYPE_CMD [0; 0; 1; 0; 1; 0; 1; 1]) /\
    __init__ None "GP0" "GP4" None 16 2 FONT_5x10 hw =
    __init__ None "GP0" "GP4" None 16 2 FONT_5x8 hw.
Proof.
  intros hw. split; [| reflexivity].
  exact (init_4pins default_host_pins "GP0" "GP4" None 16 2 FONT_5x10 hw
           (PyTuple [0x00; 0x40]) eq_refl eq_refl).
Qed.

(** [C5] With 8 data pins the constructor never pulses the clock: the
    first reset transfer sets the register-select pin and four data pins,
    then raises IndexError, so no reset command is issued at all. *)
Theorem init_8_data_pins_sends_no_reset :
  __init__ (Some eight_host_pins) "GP0" "GP4" None 16 2 FONT_5x8 [] =
  (Raise IndexError,
   init_events eight_host_pins "GP0" "GP4" None
   ++ [PinValue "GP4" 0; PinValue "GP8" 0; PinValue "GP30" 0;
       PinValue "GP31" 1; PinValue "GP3" 1]) /\
  ~ In (PinValue "GP0" 1)
       (snd (__init__ (Some eight_host_pins) "GP0" "GP4" None 16 2
               FONT_5x8 [])).
Proof.
  split; [vm_compute; reflexivity |].
  vm_compute. intros H.
  repeat (destruct H as [H | H]; [discriminate H |]). exact H.
Qed.

Lemma send_splits_payload_by_bus_width_witness :
  _send [0; 1; 0; 0; 0; 0; 0; 1] MSG_TYPE_DATA DELAY_US (lcd_16x2, []) =
  (Ok tt,
   (lcd_16x2,
    [] ++ [PinValue "GP4" 1;
           PinValue "GP8" 0; PinValue "GP30" 1;
           PinValue "GP31" 0; PinValue "GP3" 0;
           PinValue "GP0" 1; SleepUs 1530; PinValue "GP0" 0;
           PinValue "GP8" 0; PinValue "GP30" 0;
           PinValue "GP31" 0; PinValue "GP3" 1;
           PinValue "GP0" 1; SleepUs 1530; PinValue "GP0" 0])).
Proof.
  exact (proj1 (send_splits_payload_by_bus_width lcd_16x2 []
                  MSG_TYPE_DATA DELAY_US 0 1 0 0 0 0 0 1)
           "GP8" "GP30" "GP31" "GP3" eq_refl eq_refl).
Defined.

(** ** The counter and the rows *)

Lemma counter_after_length self buf : forall idx,
  0 < _width self * _height self ->
  0 <= idx < _width self * _height self ->
  counter_after self idx buf =
  (idx + Z.of_nat (length buf)) mod (_width self * _height self).
Proof.
  induction buf as [| ch rest IH]; intros idx Hpos Hidx.
  - cbn. rewrite Z.add_0_r. symmetry. now apply Z.mod_small.
  - cbn [counter_after length].
    rewrite IH by (try apply Z.mod_pos_bound; lia).
    rewrite Zplus_mod_idemp_l. f_equal. lia.
Qed.

Lemma write_events_concat self tbl b1 : forall idx b2,
  write_events self tbl idx (b1 ++ b2) =
  write_events self tbl idx b1
  ++ write_events self tbl (counter_after self idx b1) b2.
Proof.
  induction b1 as [| ch rest IH]; intros idx b2.
  - reflexivity.
  - cbn [app write_events counter_after]. rewrite IH.
    now rewrite <- !app_assoc.
Qed.

Lemma counter_after_concat self b1 : forall idx b2,
  counter_after self idx (b1 ++ b2) =
  counter_after self (counter_after self idx b1) b2.
Proof.
  induction b1 as [| ch rest IH]; intros idx b2; [reflexivity |].
  cbn [app counter_after]. apply IH.
Qed.

(** On an object whose line table is a tuple with one entry per row: a
    text of exactly width x height characters brings the counter back to
    0, and the character after it is preceded by the address command of
    row 0. *)
Lemma write_wraps_to_row_0 self hw tbl buf ch :
  write_ready self tbl ->
  latin1 buf -> (ch < 256)%N ->
  Z.of_nat (length buf) = _width self * _height self ->
  counter_after self 0 buf = 0 /\
  write (buf ++ [ch]) (self, hw) =
  (Ok tt,
   (with_ch_idx self (1 mod (_width self * _height self)),
    hw ++ byte_events self MSG_TYPE_CMD home_bits
       ++ write_events self tbl 0 buf
       ++ byte_events self MSG_TYPE_CMD
            (addr_bits (Z.lor (Z.land (nth 0 tbl 0) 0xff) 0x80))
       ++ byte_events self MSG_TYPE_DATA (format_08b ch))).
Proof.
  intros Hready Hbuf Hch Hlen.
  assert (Hpos : 0 < _width self * _height self)
    by (destruct Hready as (_ & Hw & Hh & _); nia).
  assert (H0 : counter_after self 0 buf = 0).
  { rewrite counter_after_length by lia.
    rewrite Hlen, Z.add_0_l. apply Z_mod_same_full. }
  split; [exact H0 |].
  rewrite (write_spec (buf ++ [ch]) self hw tbl Hready)
    by (apply Forall_app; split; [exact Hbuf | now constructor]).
  rewrite counter_after_concat, write_events_concat, H0.
  cbn [counter_after write_events].
  replace (0 mod _width self) with 0 by (symmetry; apply Z.mod_0_l; lia).
  replace (0 / _width self) with 0 by (symmetry; apply Z.div_0_l; lia).
  cbn [Z.eqb Z.to_nat Z.add]. rewrite app_nil_r.
  rewrite <- ?app_assoc. reflexivity.
Qed.

(** With a bare int as line table [write] stops at its first character:
    the home command has gone out, no address and no character has. *)
Lemma write_bare_int_table self hw n ch buf :
  bus_ready self -> _width self <> 0 -> _line_addr self = PyInt n ->
  write (ch :: buf) (self, hw) =
  (Raise TypeError,
   (with_ch_idx self 0, hw ++ byte_events self MSG_TYPE_CMD home_bits)).
Proof.
  intros Hbus Hw Htbl. unfold write, home, bind.
  change [0; 0; 0; 0; 0; 0; 1; 0] with home_bits.
  rewrite (send_byte self hw MSG_TYPE_CMD home_bits Hbus eq_refl).
  cbn [get_self put_self fst snd for_each].
  unfold write_char, bind. cbn [get_self lift fst snd].
  cbn [with_ch_idx _ch_idx _width _line_addr].
  unfold mod_, floordiv. apply Z.eqb_neq in Hw. rewrite Hw.
  rewrite Z.mod_0_l by (apply Z.eqb_neq; exact Hw).
  cbn [Z.eqb]. rewrite Htbl. reflexivity.
Qed.

(** [C7] On the one-row display the constructor builds, [write] cannot
    write a character: at counter 0, where the address command of row 0 is
    due, indexing the line table raises TypeError, and neither the address
    command nor the data byte is sent. *)
Theorem write_on_height_1_raises :
  fst (__init__ None "GP0" "GP4" None 16 1 FONT_5x8 []) = Ok lcd_16x1 /\
  forall hw : list event,
    write [65%N] (lcd_16x1, hw) =
    (Raise TypeError,
     (lcd_16x1, hw ++ byte_events lcd_16x1 MSG_TYPE_CMD home_bits)).
Proof.
  split.
  - exact (f_equal fst
             (init_4pins default_host_pins "GP0" "GP4" None 16 1 FONT_5x8 []
                (PyInt 0x00) eq_refl eq_refl)).
  - intros hw.
    apply (write_bare_int_table lcd_16x1 hw 0x00 65%N []).
    + split; [reflexivity | left; reflexivity].
    + discriminate.
    + reflexivity.
Qed.

(** ** Address commands *)

Lemma set_address_payload (addr mask high : Z) :
  (mask = 0xff \/ mask = 0x7f) -> (high = 0x80 \/ high = 0x40) ->
  let bits := addr_bits (Z.lor (Z.land addr mask) high) in
  length bits = 8%nat /\ Forall is_bit bits /\
  bits_value bits = Z.lor (Z.land addr mask) high.
Proof.
  intros Hm Hh bits.
  destruct (addr_bits_byte _ (land_lor_byte addr mask high Hm Hh))
    as (Hlen & Hval & Hbits).
  now repeat split.
Qed.

(** [C8] For every address [a], [set_ddram a] sends as a command the
    8-bit payload that denotes [(a & 0xff) | 0x80], most significant bit
    first, and [set_cgram a] the one that denotes [(a & 0x7f) | 0x40];
    for address 0x05 these are the bit patterns of 0x85 and 0x45. *)
Theorem set_address_command_bytes :
  forall (addr : Z) (self : HD44780) (hw : list event),
    bus_ready self ->
    (exists bits : list Z,
       length bits = 8%nat /\ Forall is_bit bits /\
       bits_value bits = Z.lor (Z.land addr 0xff) 0x80 /\
       set_ddram addr (self, hw) =
       (Ok tt, (self, hw ++ byte_events self MSG_TYPE_CMD bits))) /\
    (exists bits : list Z,
       length bits = 8%nat /\ Forall is_bit bits /\
       bits_value bits = Z.lor (Z.land addr 0x7f) 0x40 /\
       set_cgram addr (self, hw) =
       (Ok tt, (self, hw ++ byte_events self MSG_TYPE_CMD bits))) /\
    set_ddram 0x05 (self, hw) =
    (Ok tt,
     (self, hw ++ byte_events self MSG_TYPE_CMD [1; 0; 0; 0; 0; 1; 0; 1])) /\
    set_cgram 0x05 (self, hw) =
    (Ok tt,
     (self, hw ++ byte_events self MSG_TYPE_CMD [0; 1; 0; 0; 0; 1; 0; 1])).
Proof.
  intros addr self hw Hbus.
  destruct (set_address_payload addr 0xff 0x80
              (or_introl eq_refl) (or_introl eq_refl)) as (Hl1 & Hb1 & Hv1).
  destruct (set_address_payload addr 0x7f 0x40
              (or_intror eq_refl) (or_intror eq_refl)) as (Hl2 & Hb2 & Hv2).
  repeat split.
  - eexists. repeat split; [exact Hl1 | exact Hb1 | exact Hv1 |].
    unfold set_ddram. now apply send_byte.
  - eexists. repeat split; [exact Hl2 | exact Hb2 | exact Hv2 |].
    unfold set_cgram. now apply send_byte.
  - unfold set_ddram.
    change (addr_bits (Z.lor (Z.land 0x05 0xff) 0x80))
      with [1; 0; 0; 0; 0; 1; 0; 1].
    now apply send_byte.
  - unfold set_cgram.
    change (addr_bits (Z.lor (Z.land 0x05 0x7f) 0x40))
      with [0; 1; 0; 0; 0; 1; 0; 1].
    now apply send_byte.
Qed.

Lemma set_address_command_bytes_witness :
  set_ddram 0x05 (lcd_16x2, []) =
  (Ok tt,
   (lcd_16x2,
    [] ++ byte_events lcd_16x2 MSG_TYPE_CMD [1; 0; 0; 0; 0; 1; 0; 1])).
Proof.
  refine (proj1 (proj2 (proj2
            (set_address_command_bytes 0x05 lcd_16x2 [] _)))).
  split; [reflexivity | left; reflexivity].
Defined.

(** ** Pin counts the driver does not support *)

(** [C9] With three data pins the constructor raises, but not the
    configuration error of its pin-count check: the second chunk of the
    first reset transfer reads beyond the payload and raises IndexError,
    after the first chunk has been clocked out. *)
Theorem init_3_data_pins_raises_index_error :
  __init__ (Some three_host_pins) "GP0" "GP4" None 16 2 FONT_5x8 [] =
  (Raise IndexError,
   init_events three_host_pins "GP0" "GP4" None
   ++ [PinValue "GP4" 0;
       PinValue "GP8" 0; PinValue "GP30" 0; PinValue "GP31" 1;
       PinValue "GP0" 1; SleepUs 1530; PinValue "GP0" 0;
       PinValue "GP8" 1]) /\
  fst (__init__ (Some three_host_pins) "GP0" "GP4" None 16 2 FONT_5x8 [])
  <> Raise pin_count_error.
Proof.
  split; [vm_compute; reflexivity |].
  vm_compute. discriminate.
Qed.

(** Whatever the number of data pins other than 4, and whatever the
    height, the constructor raises and hands out no object.  The exception
    is the configuration error for a height the line table does not know
    and for 1 or 2 pins; it is ValueError for no pins and IndexError for 3
    pins and for 5 or more. *)
Lemma init_without_4_pins_raises host_pins clk rs rw width height font hw :
  length host_pins <> 4%nat ->
  exists e,
    fst (__init__ (Some host_pins) clk rs rw width height font hw) = Raise e.
Proof.
  intros Hne.
  destruct (_init_line_addrs width height) as [la | e] eqn:Hline.
  - rewrite (init_pin_count host_pins clk rs rw width height font hw la
               Hline Hne).
    destruct (length host_pins) as [| [| [| n]]]; eexists; reflexivity.
  - unfold __init__. rewrite Hline. now exists e.
Qed.

Lemma init_1_or_2_pins_raises_pin_count_error
    host_pins clk rs rw width height font hw :
  (length host_pins = 1 \/ length host_pins = 2)%nat ->
  height = 1 \/ height = 2 \/ height = 4 ->
  fst (__init__ (Some host_pins) clk rs rw width height font hw) =
  Raise pin_count_error.
Proof.
  intros Hlen Hh.
  assert (Hline : exists la, _init_line_addrs width height = Ok la)
    by (destruct Hh as [-> | [-> | ->]]; eexists; reflexivity).
  destruct Hline as [la Hline].
  rewrite (init_pin_count host_pins clk rs rw width height font hw la Hline)
    by lia.
  destruct Hlen as [-> | ->]; reflexivity.
Qed.

(** ** The clock line between operations *)

(** On a 4-pin bus [set_4bit_mode] goes through from any mode. *)
Lemma set_4bit_mode_returns self hw :
  bus_ready self -> _no_pins self = 4 ->
  exists self' hw', set_4bit_mode (self, hw) = (Ok tt, (self', hw')).
Proof.
  intros Hbus H4.
  destruct (_mode self =? MODE_8BIT) eqn:Hm.
  - apply Z.eqb_eq in Hm. do 2 eexists.
    now apply set_4bit_mode_4pins.
  - unfold set_4bit_mode, bind. cbn [get_self fst snd]. rewrite Hm.
    rewrite (set_8bit_mode_4pins self hw Hbus H4).
    change [0; 0; 1; 0] with switch_bits.
    rewrite (nibble_on_4pins (with_mode self MODE_8BIT) _ MSG_TYPE_CMD
               switch_bits Hbus H4 eq_refl).
    now do 2 eexists.
Qed.

Lemma op_returns op self hw :
  op_defined self op ->
  exists self' hw', run_op op (self, hw) = (Ok tt, (self', hw')).
Proof.
  destruct op; cbn [op_defined run_op].
  - intros Hbus. do 2 eexists. unfold clear. now apply send_byte.
  - intros Hbus. do 2 eexists. unfold home. now apply send_byte.
  - intros Hbus. do 2 eexists. unfold shift. now apply send_byte.
  - intros [[tbl Hready] Hbuf]. do 2 eexists.
    now apply (write_spec buf self hw tbl).
  - intros [Hbus H4]. do 2 eexists. now apply set_8bit_mode_4pins.
  - intros [Hbus H4]. now apply set_4bit_mode_returns.
  - intros Hbus. do 2 eexists. unfold set_display_opts. now apply send_byte.
  - intros Hbus. do 2 eexists. unfold set_entry_mode. now apply send_byte.
  - intros Hbus. do 2 eexists. unfold set_function, bind.
    cbn [get_self fst snd]. now apply send_byte.
  - intros Hbus. do 2 eexists. unfold set_ddram. apply send_byte; [exact Hbus |].
    apply (set_address_payload addr 0xff 0x80); now left.
  - intros Hbus. do 2 eexists. unfold set_cgram. apply send_byte; [exact Hbus |].
    apply (set_address_payload addr 0x7f 0x40); now right.
Qed.

(** [C10] Every public operation that returns has written, as the last
    thing on the pins, the clock pin going low, and has left the clock pin
    of the object the same; and on an object with a supported bus the
    operations do return (the mode switches on 4 data pins, [write] with a
    line table that has one entry per row and 8-bit characters). *)
Theorem public_ops_leave_clock_low :
  forall (op : public_op) (self : HD44780) (hw : list event),
    _no_pins self = Z.of_nat (length (_data_pins self)) ->
    (forall (self' : HD44780) (hw' : list event),
       run_op op (self, hw) = (Ok tt, (self', hw')) ->
       _clk_pin self' = _clk_pin self /\
       exists t, hw' = hw ++ t ++ [PinValue (_clk_pin self) 0]) /\
    (op_defined self op ->
     exists self' hw', run_op op (self, hw) = (Ok tt, (self', hw'))).
Proof.
  intros op self hw Hn. split.
  - intros self' hw' Hrun.
    destruct (runs_op (_clk_pin self) op (self, hw) tt (self', hw')
                eq_refl (eq_ind_r (fun n => 0 <= n) (Nat2Z.is_nonneg _) Hn)
                Hrun)
      as ([Hclk _] & t & Ht & t' & ->).
    split; [exact Hclk |]. now exists t'.
  - apply op_returns.
Qed.

Lemma public_ops_leave_clock_low_witness :
  exists t,
    [PinValue "GP4" 0;
     PinValue "GP8" 0; PinValue "GP30" 0; PinValue "GP31" 0;
     PinValue "GP3" 0;
     PinValue "GP0" 1; SleepUs 1530; PinValue "GP0" 0;
     PinValue "GP8" 0; PinValue "GP30" 0; PinValue "GP31" 0;
     PinValue "GP3" 1;
     PinValue "GP0" 1; SleepUs 1530; PinValue "GP0" 0] =
    [] ++ t ++ [PinValue "GP0" 0].
Proof.
  refine (proj2 (proj1 (public_ops_leave_clock_low OpClear lcd_16x2 []
                          eq_refl) lcd_16x2 _ _)).
  reflexivity.
Defined.

(** ** The objects the constructor builds *)

(** The constructor returns an object only for 4 data pins and a height
    of 1, 2 or 4, and then it is [built] from its arguments. *)
Lemma init_ok_object host_pins clk rs rw width height font hw self hw' :
  __init__ (Some host_pins) clk rs rw width height font hw = (Ok self, hw') ->
  length host_pins = 4%nat /\
  exists line_addr,
    _init_line_addrs width height = Ok line_addr /\
    self = built host_pins clk rs rw width height line_addr.
Proof.
  intros Hrun.
  destruct (Nat.eq_dec (length host_pins) 4) as [Hlen | Hne].
  - split; [exact Hlen |].
    destruct (_init_line_addrs width height) as [la | e] eqn:Hline.
    + exists la. split; [reflexivity |].
      rewrite (init_4pins host_pins clk rs rw width height font hw la
                 Hlen Hline) in Hrun.
      now inversion Hrun.
    + unfold __init__ in Hrun. rewrite Hline in Hrun. discriminate.
  - destruct (init_without_4_pins_raises host_pins clk rs rw width height
                font hw Hne) as [e He].
    rewrite Hrun in He. discriminate.
Qed.

(** Every object the constructor builds has a supported bus, and for
    heights 2 and 4 with a positive width it can take [write]; for height
    1 its line table is the bare int. *)
Lemma init_ok_ready host_pins clk rs rw width height font hw self hw' :
  __init__ (Some host_pins) clk rs rw width height font hw = (Ok self, hw') ->
  bus_ready self /\ _no_pins self = 4 /\ _ch_idx self = 0 /\
  (0 < width -> height = 2 \/ height = 4 ->
   exists tbl, write_ready self tbl) /\
  (height = 1 -> _line_addr self = PyInt 0x00).
Proof.
  intros Hrun.
  destruct (init_ok_object _ _ _ _ _ _ _ _ _ _ Hrun)
    as (Hlen & la & Hline & ->).
  assert (Hbus : bus_ready (built host_pins clk rs rw width height la))
    by (split; cbn; [reflexivity | left; now rewrite Hlen]).
  repeat split; try exact (proj1 Hbus); try exact (proj2 Hbus).
  - cbn. now rewrite Hlen.
  - intros Hw [-> | ->]; inversion Hline; subst; eexists;
      (split; [exact Hbus |]); cbn; repeat split; lia.
  - intros ->. now inversion Hline.
Qed.

(** * Further properties of the driver *)

(** ** The two bit encoders *)

Lemma fold_bits_acc (l : list Z) : forall acc,
  fold_left (fun a b => 2 * a + b) l acc =
  acc * 2 ^ Z.of_nat (length l) + bits_value l.
Proof.
  unfold bits_value.
  induction l as [| b l IH]; intros acc.
  - cbn. lia.
  - cbn [fold_left length]. rewrite IH, (IH (2 * 0 + b)).
    rewrite Nat2Z.inj_succ, Z.pow_succ_r by lia. lia.
Qed.

Lemma bits_value_app (l1 l2 : list Z) :
  bits_value (l1 ++ l2) =
  bits_value l1 * 2 ^ Z.of_nat (length l2) + bits_value l2.
Proof.
  unfold bits_value at 1. rewrite fold_left_app.
  fold (bits_value l1). apply fold_bits_acc.
Qed.

Lemma pos_digits_acc (p : positive) : forall acc,
  pos_digits p acc = pos_digits p [] ++ acc.
Proof.
  induction p as [q IH | q IH |]; intros acc; cbn [pos_digits].
  - rewrite IH, (IH [1]). now rewrite <- app_assoc.
  - rewrite IH, (IH [0]). now rewrite <- app_assoc.
  - reflexivity.
Qed.

Lemma pos_digits_value (p : positive) :
  bits_value (pos_digits p []) = Z.pos p.
Proof.
  induction p as [q IH | q IH |]; cbn [pos_digits].
  - rewrite pos_digits_acc, bits_value_app, IH. cbn. lia.
  - rewrite pos_digits_acc, bits_value_app, IH. cbn. lia.
  - reflexivity.
Qed.

Lemma pos_digits_bits (p : positive) : forall acc,
  Forall is_bit acc -> Forall is_bit (pos_digits p acc).
Proof.
  induction p as [q IH | q IH |]; intros acc Hacc; cbn [pos_digits].
  - apply IH. constructor; [now right | exact Hacc].
  - apply IH. constructor; [now left | exact Hacc].
  - constructor; [now right | exact Hacc].
Qed.

Lemma zeros_value (k : nat) : bits_value (repeat 0 k) = 0.
Proof.
  induction k as [| k IH]; [reflexivity |].
  change (repeat 0 (S k)) with ([0] ++ repeat 0 k).
  rewrite bits_value_app, IH. cbn. lia.
Qed.

(** [X1] The bits [write] makes of a character decode to its code: for
    every code point, the payload of ['{0:08b}'] consists of 0s and 1s,
    has at least 8 entries, and denotes the code point with its first bit
    as the most significant one. *)
Theorem format_08b_round_trip :
  forall ch : N,
    bits_value (format_08b ch) = Z.of_N ch /\
    Forall is_bit (format_08b ch) /\
    (8 <= length (format_08b ch))%nat.
Proof.
  intros ch. unfold format_08b.
  set (digits := match ch with
                 | 0%N => [0]
                 | N.pos p => pos_digits p []
                 end).
  assert (Hval : bits_value digits = Z.of_N ch)
    by (destruct ch as [| p]; [reflexivity | apply pos_digits_value]).
  assert (Hbits : Forall is_bit digits).
  { destruct ch as [| p]; cbn.
    - constructor; [now left | constructor].
    - apply pos_digits_bits. constructor. }
  repeat split.
  - rewrite bits_value_app, zeros_value, Hval. lia.
  - apply Forall_app. split; [| exact Hbits].
    apply Forall_forall. intros b Hb. apply repeat_spec in Hb. now left.
  - rewrite length_app, repeat_length. lia.
Qed.

(** [X2] On one byte the two encoders of the driver agree: the bits
    [write] sends for a character with code below 256 are the bits an
    address of the same value is sent with. *)
Theorem format_08b_is_addr_bits :
  forall ch : N,
    (ch < 256)%N -> format_08b ch = addr_bits (Z.of_N ch).
Proof.
  intros ch Hch.
  assert (Hall : forallb (fun k =>
                    if list_eq_dec Z.eq_dec (format_08b (N.of_nat k))
                                            (addr_bits (Z.of_nat k))
                    then true else false) (seq 0 256) = true)
    by (vm_compute; reflexivity).
  rewrite forallb_forall in Hall.
  specialize (Hall (N.to_nat ch)).
  rewrite Nnat.N2Nat.id, N_nat_Z in Hall.
  destruct (list_eq_dec Z.eq_dec (format_08b ch) (addr_bits (Z.of_N ch)))
    as [Heq | Hne]; [exact Heq |].
  assert (Hin : In (N.to_nat ch) (seq 0 256)) by (apply in_seq; lia).
  specialize (Hall Hin). discriminate.
Qed.

Lemma format_08b_is_addr_bits_witness :
  format_08b 65 = addr_bits (Z.of_N 65).
Proof. apply format_08b_is_addr_bits. reflexivity. Defined.

(** ** How much of an address reaches the display *)

Lemma lor_low_bits (a high k : Z) :
  (high = 0x80 /\ k = 128) \/ (high = 0x40 /\ k = 64) ->
  Z.lor (a mod (2 * k)) high = Z.lor (a mod k) high.
Proof.
  intros Hk.
  assert (Hkpos : 0 < k) by (destruct Hk as [[_ ->] | [_ ->]]; lia).
  assert (Hall : forall m, 0 <= m < 256 -> m < 2 * k ->
                           Z.lor m high = Z.lor (m mod k) high).
  { intros m Hm.
    apply (byte_cases m (fun x => x < 2 * k ->
                                  Z.lor x high = Z.lor (x mod k) high) Hm).
    intros n Hn Hlt.
    assert (Hb : forallb (fun n => (2 * k <=? Z.of_nat n)
                                   || (Z.lor (Z.of_nat n) high
                                       =? Z.lor (Z.of_nat n mod k) high))
                         (seq 0 256) = true)
      by (destruct Hk as [[-> ->] | [-> ->]]; vm_compute; reflexivity).
    rewrite forallb_forall in Hb.
    specialize (Hb n (proj2 (in_seq 256 0 n) (conj (Nat.le_0_l n) Hn))).
    apply orb_true_iff in Hb as [Hb | Hb];
      [apply Z.leb_le in Hb; lia | now apply Z.eqb_eq]. }
  pose proof (Z.mod_pos_bound a (2 * k)) as Hbound.
  rewrite (Hall (a mod (2 * k)))
    by (destruct Hk as [[_ ->] | [_ ->]]; lia).
  rewrite (Z.mod_mod_divide a (2 * k) k) by (exists 2; lia).
  reflexivity.
Qed.

(** [X3] Only the low 7 bits of a DDRAM address and the low 6 bits of a
    CGRAM address reach the display: [set_ddram a] does what
    [set_ddram (a % 128)] does and [set_cgram a] what
    [set_cgram (a % 64)] does, in every state, for every integer [a]
    (negative ones included). *)
Theorem set_address_low_bits :
  forall (addr : Z) (st : state),
    set_ddram addr st = set_ddram (addr mod 128) st /\
    set_cgram addr st = set_cgram (addr mod 64) st.
Proof.
  intros addr st. unfold set_ddram, set_cgram.
  change 0xff with (Z.ones 8). change 0x7f with (Z.ones 7).
  rewrite !Z.land_ones by lia.
  change (2 ^ 8) with (2 * 128). change (2 ^ 7) with (2 * 64).
  rewrite (Z.mod_small (addr mod 128) (2 * 128))
    by (pose proof (Z.mod_pos_bound addr 128); lia).
  rewrite (Z.mod_small (addr mod 64) (2 * 64))
    by (pose proof (Z.mod_pos_bound addr 64); lia).
  rewrite (lor_low_bits addr 0x80 128 (or_introl (conj eq_refl eq_refl))).
  rewrite (lor_low_bits addr 0x40 64 (or_intror (conj eq_refl eq_refl))).
  split; reflexivity.
Qed.

(** ** The rows of the line table *)

(** [X4] The line table of a two- or four-row display that fits the
    80 cells of DDRAM has one entry per row; every cell (row base plus
    column) lies in one of the two DDRAM segments 0x00-0x27 and 0x40-0x67,
    and no two cells share an address. *)
Theorem line_rows_do_not_overlap :
  forall (w h : Z) (tbl : list Z),
    _init_line_addrs w h = Ok (PyTuple tbl) ->
    0 < w -> w * h <= DDRAM_TOTAL ->
    Z.of_nat (length tbl) = h /\
    forall (r1 r2 : nat) (c1 c2 : Z),
      (r1 < length tbl)%nat -> (r2 < length tbl)%nat ->
      0 <= c1 < w -> 0 <= c2 < w ->
      (DDRAM0_START <= nth r1 tbl 0 + c1 <= DDRAM0_END \/
       DDRAM1_START <= nth r1 tbl 0 + c1 <= DDRAM1_END) /\
      (nth r1 tbl 0 + c1 = nth r2 tbl 0 + c2 -> r1 = r2 /\ c1 = c2).
Proof.
  intros w h tbl Hline Hw Hfit. unfold _init_line_addrs in Hline.
  unfold DDRAM_TOTAL in Hfit.
  unfold DDRAM0_START, DDRAM0_END, DDRAM1_START, DDRAM1_END in *.
  destruct (h =? 1) eqn:E1; [discriminate |].
  destruct (h =? 2) eqn:E2.
  - apply Z.eqb_eq in E2. subst h. inversion Hline; subst; clear Hline.
    split; [reflexivity |].
    intros r1 r2 c1 c2 Hr1 Hr2 Hc1 Hc2. cbn [length] in Hr1, Hr2.
    destruct r1 as [| [| r1]]; [| | lia];
      destruct r2 as [| [| r2]]; try lia; cbn [nth]; lia.
  - destruct (h =? 4) eqn:E4; [| discriminate].
    apply Z.eqb_eq in E4. subst h. inversion Hline; subst; clear Hline.
    split; [reflexivity |].
    intros r1 r2 c1 c2 Hr1 Hr2 Hc1 Hc2. cbn [length] in Hr1, Hr2.
    destruct r1 as [| [| [| [| r1]]]]; try lia;
      destruct r2 as [| [| [| [| r2]]]]; try lia; cbn [nth]; lia.
Qed.

Lemma line_rows_do_not_overlap_witness :
  Z.of_nat (length [0x00; 0x40; 0x14; 0x54]) = 4.
Proof.
  refine (proj1 (line_rows_do_not_overlap 20 4 [0x00; 0x40; 0x14; 0x54]
                   eq_refl _ _)); [reflexivity | discriminate].
Defined.

(** ** A transfer on any bus, for any payload *)

Lemma skipn_nth_cons {A} (l : list A) (d : A) : forall a,
  (a < length l)%nat -> skipn a l = nth a l d :: skipn (S a) l.
Proof.
  induction l as [| x l IH]; intros a Ha; [cbn in Ha; lia |].
  destruct a as [| a]; [reflexivity |].
  cbn [skipn nth]. apply IH. cbn in Ha. lia.
Qed.

Lemma for_each_app {A} (xs ys : list A) (body : A -> M unit) st :
  for_each (xs ++ ys) body st =
  match for_each xs body st with
  | (Ok _, st') => for_each ys body st'
  | (Raise e, st') => (Raise e, st')
  end.
Proof.
  revert st. induction xs as [| x xs IH]; intros st; [reflexivity |].
  cbn [app for_each]. unfold bind.
  destruct (body x st) as [[u | e] st1]; [apply IH | reflexivity].
Qed.

(** The inner loop from data pin [a] on, when the payload has a bit for
    every pin of the chunk that starts at [i]. *)
Lemma set_pins_from_ok (pins : list pin) (bits : list Z) (i : nat)
    (m : nat) :
  forall (a : nat) (self : HD44780) (hw : list event),
    (a + m = length pins)%nat ->
    (i + length pins <= length bits)%nat ->
    for_each (map Z.of_nat (seq a m))
      (fun b =>
         p <- lift (getitem pins b) ;;
         v <- lift (getitem bits (Z.of_nat i + b)) ;;
         pin_value p v) (self, hw) =
    (Ok tt,
     (self,
      hw ++ map (fun pv => PinValue (fst pv) (snd pv))
                (combine (skipn a pins) (skipn (i + a) bits)))).
Proof.
  induction m as [| m IH]; intros a self hw Ham Hfit.
  - cbn [seq map for_each]. unfold ret.
    rewrite (skipn_all2 pins) by lia. cbn. now rewrite app_nil_r.
  - cbn [seq map for_each]. unfold bind at 1 2. unfold lift at 1.
    rewrite (getitem_nth pins (Z.of_nat a) EmptyString) by lia.
    unfold bind at 1. unfold lift at 1. cbn [fst snd].
    rewrite (getitem_nth bits (Z.of_nat i + Z.of_nat a) 0) by lia.
    unfold pin_value, emit. cbn [fst snd].
    rewrite (IH (S a)) by lia.
    rewrite (skipn_nth_cons pins EmptyString a) by lia.
    rewrite (skipn_nth_cons bits 0 (i + a)) by lia.
    cbn [combine map fst snd].
    rewrite <- Nat2Z.inj_add, !Nat2Z.id.
    replace (i + S a)%nat with (S (i + a)) by lia.
    now rewrite <- app_assoc.
Qed.

Lemma set_data_pins_ok self hw bits (i : nat) :
  _no_pins self = Z.of_nat (length (_data_pins self)) ->
  (i + length (_data_pins self) <= length bits)%nat ->
  set_data_pins bits (Z.of_nat i) (self, hw) =
  (Ok tt,
   (self,
    hw ++ map (fun pv => PinValue (fst pv) (snd pv))
              (combine (_data_pins self) (skipn i bits)))).
Proof.
  intros Hn Hfit. unfold set_data_pins. unfold bind at 1 2.
  cbn [get_self fst snd]. rewrite Hn, range_unit. unfold lift at 1.
  rewrite (set_pins_from_ok (_data_pins self) bits i) by (try lia; reflexivity).
  now rewrite Nat.add_0_r.
Qed.

(** The inner loop when the payload ends inside the chunk that starts at
    [i]: IndexError, and the object is as it was. *)
Lemma set_pins_from_ragged (pins : list pin) (bits : list Z) (i : nat)
    (m : nat) :
  forall (a : nat) (self : HD44780) (hw : list event),
    (i + a <= length bits)%nat ->
    (a + m = length pins)%nat ->
    (length bits < i + length pins)%nat ->
    exists hw',
      for_each (map Z.of_nat (seq a m))
        (fun b =>
           p <- lift (getitem pins b) ;;
           v <- lift (getitem bits (Z.of_nat i + b)) ;;
           pin_value p v) (self, hw) = (Raise IndexError, (self, hw')).
Proof.
  induction m as [| m IH]; intros a self hw Ha Ham Hlt; [lia |].
  cbn [seq map for_each]. unfold bind at 1 2. unfold lift at 1.
  rewrite (getitem_nth pins (Z.of_nat a) EmptyString) by lia.
  unfold bind at 1. unfold lift at 1. cbn [fst snd].
  destruct (Nat.eq_dec (i + a) (length bits)) as [Heq | Hne].
  - rewrite getitem_out_of_range by lia. now eexists.
  - rewrite (getitem_nth bits (Z.of_nat i + Z.of_nat a) 0) by lia.
    unfold pin_value, emit. cbn [fst snd].
    apply IH; lia.
Qed.

Lemma set_data_pins_ragged self hw bits (i : nat) :
  _no_pins self = Z.of_nat (length (_data_pins self)) ->
  (i <= length bits < i + length (_data_pins self))%nat ->
  exists hw',
    set_data_pins bits (Z.of_nat i) (self, hw) =
    (Raise IndexError, (self, hw')).
Proof.
  intros Hn Hlt. unfold set_data_pins. unfold bind at 1 2.
  cbn [get_self fst snd]. rewrite Hn, range_unit. unfold lift at 1.
  apply set_pins_from_ragged; lia.
Qed.

Lemma range_chunks (len n : nat) :
  (0 < n)%nat ->
  range 0 (Z.of_nat len) (Z.of_nat n) =
  Ok (map (fun j => Z.of_nat (j * n)) (seq 0 ((len + n - 1) / n))).
Proof.
  intros Hn. unfold range.
  replace (Z.of_nat n =? 0) with false by (symmetry; apply Z.eqb_neq; lia).
  replace (0 <? Z.of_nat n) with true by (symmetry; apply Z.ltb_lt; lia).
  replace (Z.to_nat ((Z.of_nat len - 0 + Z.of_nat n - 1) / Z.of_nat n))
    with ((len + n - 1) / n)%nat.
  - f_equal. apply map_ext. intros j. lia.
  - replace (Z.of_nat len - 0 + Z.of_nat n - 1)
      with (Z.of_nat (len + n - 1)) by lia.
    now rewrite <- Nat2Z.inj_div, Nat2Z.id.
Qed.

Section AnyBus.

Variables (self : HD44780) (bits : list Z) (delay_us : Z).
Hypothesis Hcount : _no_pins self = Z.of_nat (length (_data_pins self)).

Let n := length (_data_pins self).

Let chunk := fun i : Z =>
  set_data_pins bits i ;;
  pin_value (_clk_pin self) 1 ;;
  sleep_us delay_us ;;
  pin_value (_clk_pin self) 0.

Lemma chunk_loop_ok (m : nat) : forall (a : nat) (hw : list event),
  ((a + m) * n <= length bits)%nat ->
  for_each (map (fun j => Z.of_nat (j * n)) (seq a m)) chunk (self, hw) =
  (Ok tt,
   (self,
    hw ++ flat_map (fun j => chunk_events self delay_us (skipn (j * n) bits))
                   (seq a m))).
Proof.
  induction m as [| m IH]; intros a hw Hfit.
  - cbn. now rewrite app_nil_r.
  - cbn [seq map for_each flat_map]. unfold bind at 1.
    unfold chunk at 1. unfold bind at 1.
    rewrite (set_data_pins_ok self hw bits (a * n) Hcount) by (fold n; nia).
    unfold bind, pin_value, sleep_us, emit. cbn [fst snd].
    rewrite (IH (S a)) by lia.
    unfold chunk_events at 2. fold n.
    now rewrite <- !app_assoc.
Qed.

Lemma send_chunks_ok msg_type hw (k : nat) :
  (0 < n)%nat -> length bits = (k * n)%nat ->
  _send bits msg_type delay_us (self, hw) =
  (Ok tt, (self, hw ++ transfer_events self msg_type delay_us bits k)).
Proof.
  intros Hn Hlen. unfold _send. unfold bind at 1 2 3.
  cbn [get_self pin_value emit fst snd].
  rewrite Hcount. fold n. rewrite (range_chunks (length bits) n Hn).
  unfold lift at 1.
  replace ((length bits + n - 1) / n)%nat with k.
  - fold chunk. rewrite (chunk_loop_ok k 0) by lia.
    unfold transfer_events. fold n. now rewrite <- app_assoc.
  - rewrite Hlen.
    apply (Nat.div_unique (k * n + n - 1) n k (n - 1)); lia.
Qed.

Lemma send_ragged msg_type hw :
  (0 < n)%nat -> (length bits mod n <> 0)%nat ->
  exists t,
    _send bits msg_type delay_us (self, hw) =
    (Raise IndexError,
     (self,
      hw ++ transfer_events self msg_type delay_us bits (length bits / n)
         ++ t)).
Proof.
  intros Hn Hrag.
  pose proof (Nat.div_mod_eq (length bits) n) as Hdm.
  pose proof (Nat.mod_upper_bound (length bits) n ltac:(lia)) as Hr.
  set (q := (length bits / n)%nat) in *.
  set (r := (length bits mod n)%nat) in *.
  unfold _send. unfold bind at 1 2 3.
  cbn [get_self pin_value emit fst snd].
  rewrite Hcount. fold n. rewrite (range_chunks (length bits) n Hn).
  unfold lift at 1.
  replace ((length bits + n - 1) / n)%nat with (q + 1)%nat
    by (apply (Nat.div_unique (length bits + n - 1) n (q + 1) (r - 1)); nia).
  rewrite seq_app, map_app, for_each_app. fold chunk.
  rewrite (chunk_loop_ok q 0) by nia.
  cbn [seq map for_each Nat.add]. unfold bind at 1. unfold chunk at 1.
  unfold bind at 1.
  destruct (set_data_pins_ragged self
              ((hw ++ [PinValue (_rs_pin self)
                                (int_eq msg_type MSG_TYPE_DATA)])
               ++ flat_map (fun j => chunk_events self delay_us
                                       (skipn (j * n) bits)) (seq 0 q))
              bits (q * n) Hcount) as [hw' Hraise]; [fold n; nia |].
  rewrite Hraise.
  assert (Hgrow : exists t,
            hw' = ((hw ++ [PinValue (_rs_pin self)
                                    (int_eq msg_type MSG_TYPE_DATA)])
                   ++ flat_map (fun j => chunk_events self delay_us
                                           (skipn (j * n) bits)) (seq 0 q))
                  ++ t).
  { assert (Hb : log_blind (set_data_pins bits (Z.of_nat (q * n))))
      by (unfold set_data_pins; blind).
    rewrite Hb in Hraise. unfold shift_log in Hraise.
    inversion Hraise as [[Hr1 Hs1 Hh1]]. now eexists. }
  destruct Hgrow as [t ->]. exists t.
  unfold transfer_events. fold n. cbn [app].
  now rewrite <- !app_assoc.
Qed.

End AnyBus.

(** [X5] On any bus of [n >= 1] data pins, a payload of [k * n] bits goes
    out as exactly [k] chunks: register select is written once, then for
    [j = 0 .. k-1] the data pins take bits [j*n .. j*n+n-1] in pin order
    and the clock is pulsed; the transfer returns and the object is
    unchanged.  An empty payload ([k = 0]) writes register select only. *)
Theorem send_whole_chunks :
  forall (self : HD44780) (hw : list event) (msg_type delay_us : Z)
         (bits : list Z) (k : nat),
    _no_pins self = Z.of_nat (length (_data_pins self)) ->
    (0 < length (_data_pins self))%nat ->
    length bits = (k * length (_data_pins self))%nat ->
    _send bits msg_type delay_us (self, hw) =
    (Ok tt, (self, hw ++ transfer_events self msg_type delay_us bits k)).
Proof.
  intros self hw msg_type delay_us bits k Hcount Hn Hlen.
  now apply send_chunks_ok.
Qed.

Lemma send_whole_chunks_witness :
  _send [1; 0; 1; 0; 0; 1; 0; 1; 1; 1; 0; 0] MSG_TYPE_DATA 7 (lcd_16x2, []) =
  (Ok tt,
   (lcd_16x2,
    [] ++ transfer_events lcd_16x2 MSG_TYPE_DATA 7
            [1; 0; 1; 0; 0; 1; 0; 1; 1; 1; 0; 0] 3)).
Proof.
  apply send_whole_chunks; [reflexivity | cbn; lia | reflexivity].
Defined.

Lemma send_no_pins self hw msg_type delay_us bits :
  _no_pins self = Z.of_nat (length (_data_pins self)) ->
  _data_pins self = [] ->
  _send bits msg_type delay_us (self, hw) =
  (Raise ValueError,
   (self, hw ++ [PinValue (_rs_pin self) (int_eq msg_type MSG_TYPE_DATA)])).
Proof.
  intros Hcount Hnone. unfold _send. unfold bind at 1 2 3.
  cbn [get_self pin_value emit fst snd].
  rewrite Hcount, Hnone. reflexivity.
Qed.

(** [X6] A transfer fails in exactly two ways.  Without data pins it
    raises ValueError after register select has been written.  With
    [n >= 1] data pins and a payload whose length is not a multiple of
    [n] it raises IndexError: the whole chunks have been clocked out, the
    data pins of the last, partial chunk may have been set, and the object
    is unchanged. *)
Theorem send_failures :
  forall (self : HD44780) (hw : list event) (msg_type delay_us : Z)
         (bits : list Z),
    _no_pins self = Z.of_nat (length (_data_pins self)) ->
    (_data_pins self = [] ->
     _send bits msg_type delay_us (self, hw) =
     (Raise ValueError,
      (self, hw ++ [PinValue (_rs_pin self)
                             (int_eq msg_type MSG_TYPE_DATA)]))) /\
    ((0 < length (_data_pins self))%nat ->
     (length bits mod length (_data_pins self) <> 0)%nat ->
     exists t,
       _send bits msg_type delay_us (self, hw) =
       (Raise IndexError,
        (self,
         hw ++ transfer_events self msg_type delay_us bits
                 (length bits / length (_data_pins self))
            ++ t))).
Proof.
  intros self hw msg_type delay_us bits Hcount. split.
  - now apply send_no_pins.
  - intros Hn Hrag. now apply send_ragged.
Qed.

Lemma send_failures_witness :
  exists t,
    _send [1; 0; 1; 0; 0; 1] MSG_TYPE_CMD 7 (lcd_16x2, []) =
    (Raise IndexError,
     (lcd_16x2,
      [] ++ transfer_events lcd_16x2 MSG_TYPE_CMD 7 [1; 0; 1; 0; 0; 1] 1
         ++ t)).
Proof.
  refine (proj2 (send_failures lcd_16x2 [] MSG_TYPE_CMD 7
                   [1; 0; 1; 0; 0; 1] eq_refl) _ _);
    [cbn; lia | cbn; discriminate].
Defined.

(** ** More on writing text *)

(** [X7] On an object with a supported bus, a positive geometry and a
    line table with one entry per row, [write] of a text of 8-bit
    characters returns; the counter ends at the length of the text modulo
    width x height; and the pins see the home command and then, for each
    character, the address command of its row exactly when the counter is
    a multiple of the width, followed by the character as data. *)
Theorem write_log_and_counter :
  forall (self : HD44780) (hw : list event) (tbl : list Z) (buf : list N),
    write_ready self tbl ->
    latin1 buf ->
    exists self',
      write buf (self, hw) =
      (Ok tt,
       (self',
        hw ++ byte_events self MSG_TYPE_CMD home_bits
           ++ write_events self tbl 0 buf)) /\
      self' = with_ch_idx self (_ch_idx self') /\
      _ch_idx self' =
      Z.of_nat (length buf) mod (_width self * _height self).
Proof.
  intros self hw tbl buf Hready Hbuf.
  exists (with_ch_idx self (counter_after self 0 buf)).
  split; [now apply write_spec | split; [reflexivity |]].
  cbn [_ch_idx with_ch_idx].
  destruct Hready as (_ & Hw & Hh & _).
  rewrite counter_after_length by nia. reflexivity.
Qed.

Lemma write_log_and_counter_witness :
  exists self',
    write [72; 105]%N (lcd_16x2, []) =
    (Ok tt,
     (self',
      [] ++ byte_events lcd_16x2 MSG_TYPE_CMD home_bits
         ++ write_events lcd_16x2 [0x00; 0x40] 0 [72; 105]%N)) /\
    self' = with_ch_idx lcd_16x2 (_ch_idx self') /\
    _ch_idx self' = Z.of_nat 2 mod (16 * 2).
Proof.
  apply (write_log_and_counter lcd_16x2 [] [0x00; 0x40] [72; 105]%N).
  - repeat split; try reflexivity. left; reflexivity.
  - repeat constructor.
Defined.

(** [X8] [write] does not depend on where the counter stood: on a
    supported bus it gives the same outcome, object and pin log from an
    object whose counter is [v] as from the same object with any other
    counter value, for every text, also one it fails on. *)
Theorem write_forgets_counter :
  forall (self : HD44780) (v : Z) (hw : list event) (buf : list N),
    bus_ready self ->
    write buf (with_ch_idx self v, hw) = write buf (self, hw).
Proof.
  intros self v hw buf Hbus. unfold write, home, bind.
  change [0; 0; 0; 0; 0; 0; 1; 0] with home_bits.
  rewrite (send_byte (with_ch_idx self v) hw MSG_TYPE_CMD home_bits Hbus
             eq_refl).
  rewrite (send_byte self hw MSG_TYPE_CMD home_bits Hbus eq_refl).
  reflexivity.
Qed.

Lemma write_forgets_counter_witness :
  write [65%N] (with_ch_idx lcd_16x2 7, []) = write [65%N] (lcd_16x2, []).
Proof.
  apply write_forgets_counter. split; [reflexivity | left; reflexivity].
Defined.

(** [X9] [write] of the empty text sends the home command and nothing
    else and sets the counter to 0; it needs only a supported bus, so it
    also returns on the one-row display. *)
Theorem write_empty_text :
  forall (self : HD44780) (hw : list event),
    bus_ready self ->
    write [] (self, hw) =
    (Ok tt,
     (with_ch_idx self 0, hw ++ byte_events self MSG_TYPE_CMD home_bits)).
Proof.
  intros self hw Hbus. unfold write, home, bind.
  change [0; 0; 0; 0; 0; 0; 1; 0] with home_bits.
  now rewrite (send_byte self hw MSG_TYPE_CMD home_bits Hbus eq_refl).
Qed.

Lemma write_empty_text_witness :
  write [] (lcd_16x1, []) =
  (Ok tt,
   (with_ch_idx lcd_16x1 0,
    [] ++ byte_events lcd_16x1 MSG_TYPE_CMD home_bits)).
Proof.
  apply write_empty_text. split; [reflexivity | left; reflexivity].
Defined.




(** ** Mode switches and the constructor *)

Lemma with_mode_same self : with_mode self (_mode self) = self.
Proof. now destruct self. Qed.

(** [X11] [set_4bit_mode] on 4 data pins: if the object is not known to
    be in 8-bit mode it first sends the three resets, otherwise it does
    not; then it sends the switch command once.  Afterwards the [_mode]
    attribute is MODE_8BIT in both cases (it is never set to MODE_4BIT),
    so a second call sends the switch command only. *)
Theorem set_4bit_mode_resets_when_needed :
  forall (self : HD44780) (hw : list event),
    bus_ready self -> _no_pins self = 4 ->
    set_4bit_mode (self, hw) =
    (Ok tt,
     (with_mode self MODE_8BIT,
      hw ++ (if _mode self =? MODE_8BIT then [] else reset_events self)
         ++ nibble_events self MSG_TYPE_CMD switch_bits)).
Proof.
  intros self hw Hbus H4.
  destruct (_mode self =? MODE_8BIT) eqn:Hm.
  - apply Z.eqb_eq in Hm.
    rewrite (set_4bit_mode_4pins self hw Hbus H4 Hm).
    rewrite <- Hm. now rewrite with_mode_same.
  - unfold set_4bit_mode, bind. cbn [get_self fst snd]. rewrite Hm.
    rewrite (set_8bit_mode_4pins self hw Hbus H4).
    change [0; 0; 1; 0] with switch_bits.
    rewrite (nibble_on_4pins (with_mode self MODE_8BIT) _ MSG_TYPE_CMD
               switch_bits Hbus H4 eq_refl).
    unfold reset_events.
    change (nibble_events (with_mode self MODE_8BIT))
      with (nibble_events self).
    now rewrite <- !app_assoc.
Qed.

Lemma set_4bit_mode_resets_when_needed_witness :
  set_4bit_mode (with_mode lcd_16x2 MODE_UNKNOWN, []) =
  (Ok tt,
   (with_mode (with_mode lcd_16x2 MODE_UNKNOWN) MODE_8BIT,
    [] ++ (if _mode (with_mode lcd_16x2 MODE_UNKNOWN) =? MODE_8BIT
           then [] else reset_events (with_mode lcd_16x2 MODE_UNKNOWN))
       ++ nibble_events (with_mode lcd_16x2 MODE_UNKNOWN) MSG_TYPE_CMD
            switch_bits)).
Proof.
  apply set_4bit_mode_resets_when_needed;
    [split; [reflexivity | left; reflexivity] | reflexivity].
Defined.



(** ** What no sequence of operations changes *)

Lemma level_app c t1 : forall t2 v0,
  level c (t1 ++ t2) v0 = level c t2 (level c t1 v0).
Proof.
  induction t1 as [| e t1 IH]; intros t2 v0; [reflexivity |].
  destruct e; cbn [app level]; apply IH.
Qed.

Lemma getitem_In {A} (l : list A) (i : Z) (x : A) :
  getitem l i = Ok x -> In x l.
Proof.
  unfold getitem.
  destruct ((_ <? 0) || (_ <=? _)); [discriminate |].
  destruct (nth_error l _) as [y |] eqn:Hy; [| discriminate].
  intros H. inversion H; subst. eapply nth_error_In, Hy.
Qed.

Section Keeps.

Variable o : HD44780.
Hypothesis Hmode : _mode o = MODE_8BIT.
Hypothesis Hwired : wired o.

Lemma keeps_ret {A} (a : A) : keeps o (ret a).
Proof. intros st H. exact H. Qed.

Lemma keeps_raise {A} (e : exn) : keeps o (@raise A e).
Proof. intros st H. exact H. Qed.

Lemma keeps_bind {A B} (m : M A) (k : A -> M B) :
  keeps o m -> (forall a, keeps o (k a)) -> keeps o (bind m k).
Proof.
  intros Hm Hk st Hst. unfold bind. specialize (Hm st Hst).
  destruct (m st) as [[a | e] st1]; cbn [snd] in *.
  - now apply Hk.
  - exact Hm.
Qed.

(** After [self <- get_self], [self] is like [o]. *)
Lemma keeps_get {B} (k : HD44780 -> M B) :
  (forall self, like o self -> keeps o (k self)) ->
  keeps o (bind get_self k).
Proof.
  intros Hk st Hst. unfold bind, get_self.
  apply (Hk (fst st) (proj1 Hst) st Hst).
Qed.

(** After [a <- lift r], [r] was [Ok a]. *)
Lemma keeps_lift {A B} (r : result A) (k : A -> M B) :
  (forall a, r = Ok a -> keeps o (k a)) -> keeps o (bind (lift r) k).
Proof.
  intros Hk st Hst. unfold bind, lift.
  destruct r as [a | e]; [now apply Hk | exact Hst].
Qed.

Lemma keeps_put (s : HD44780) : like o s -> keeps o (put_self s).
Proof. intros Hs st [_ Hlow]. split; [exact Hs | exact Hlow]. Qed.

Lemma keeps_if {A} (c : bool) (m1 m2 : M A) :
  keeps o m1 -> keeps o m2 -> keeps o (if c then m1 else m2).
Proof. now destruct c. Qed.

Lemma keeps_for_each {A} (xs : list A) (body : A -> M unit) :
  (forall x, keeps o (body x)) -> keeps o (for_each xs body).
Proof.
  intros Hb. induction xs as [| x xs IH]; cbn [for_each].
  - apply keeps_ret.
  - apply keeps_bind; auto.
Qed.

(** Writing any value to a pin that is not the clock pin. *)
Lemma keeps_other_pin (p : pin) (v : Z) :
  p <> _clk_pin o -> keeps o (pin_value p v).
Proof.
  intros Hp st [Hlike Hlow]. split; [exact Hlike |].
  cbn [pin_value emit snd fst]. rewrite level_app, Hlow. cbn [level].
  apply String.eqb_neq in Hp. now rewrite Hp.
Qed.

(** One clock pulse. *)
Lemma keeps_pulse (d : Z) :
  keeps o (pin_value (_clk_pin o) 1 ;; sleep_us d ;;
           pin_value (_clk_pin o) 0).
Proof.
  intros st [Hlike Hlow]. split; [exact Hlike |].
  cbn. rewrite !level_app. cbn [level]. now rewrite String.eqb_refl.
Qed.

Lemma like_pins self :
  like o self ->
  _rs_pin self = _rs_pin o /\ _clk_pin self = _clk_pin o /\
  _data_pins self = _data_pins o /\ _width self = _width o /\
  _height self = _height o.
Proof. intros (idx & -> & _). now repeat split. Qed.

Lemma keeps_set_data_pins bits i : keeps o (set_data_pins bits i).
Proof.
  unfold set_data_pins.
  apply keeps_get. intros self Hself.
  apply keeps_lift. intros bs _.
  apply keeps_for_each. intros b.
  apply keeps_lift. intros p Hp.
  apply keeps_lift. intros v _.
  apply keeps_other_pin. intros ->.
  apply getitem_In in Hp.
  destruct (like_pins self Hself) as (_ & _ & Hd & _).
  rewrite Hd in Hp. now apply (proj2 Hwired).
Qed.

Lemma keeps_send bits msg_type d : keeps o (_send bits msg_type d).
Proof.
  unfold _send.
  apply keeps_get. intros self Hself.
  destruct (like_pins self Hself) as (Hrs & Hclk & _).
  apply keeps_bind.
  - apply keeps_other_pin. rewrite Hrs. exact (proj1 Hwired).
  - intros _. apply keeps_lift. intros chunks _.
    apply keeps_for_each. intros i.
    apply keeps_bind; [apply keeps_set_data_pins | intros _].
    rewrite Hclk. apply keeps_pulse.
Qed.

Lemma like_with_mode self : like o self -> like o (with_mode self MODE_8BIT).
Proof.
  intros (idx & -> & Hidx). exists idx. split; [| exact Hidx].
  destruct o. cbn in Hmode. now subst.
Qed.

Lemma like_with_ch_idx self idx :
  like o self ->
  (0 < _width o * _height o -> 0 <= idx < _width o * _height o) ->
  like o (with_ch_idx self idx).
Proof.
  intros (idx0 & -> & _) Hidx. exists idx. now split.
Qed.

Lemma keeps_set_8bit_mode : keeps o set_8bit_mode.
Proof.
  unfold set_8bit_mode.
  apply keeps_bind.
  - apply keeps_for_each. intros _. apply keeps_send.
  - intros _. apply keeps_get. intros self Hself.
    apply keeps_put. now apply like_with_mode.
Qed.

Lemma keeps_write_char ch : keeps o (write_char ch).
Proof.
  unfold write_char.
  apply keeps_get. intros self Hself.
  apply keeps_lift. intros line_pos _.
  apply keeps_bind.
  - apply keeps_if; [| apply keeps_ret].
    apply keeps_lift. intros line_no _.
    apply keeps_lift. intros addr _.
    unfold set_ddram. apply keeps_send.
  - intros _. apply keeps_bind; [apply keeps_send | intros _].
    apply keeps_get. intros self2 Hself2.
    apply keeps_lift. intros idx Hidx.
    apply keeps_put. apply like_with_ch_idx; [exact Hself2 |].
    destruct (like_pins self2 Hself2) as (_ & _ & _ & Hw & Hh).
    rewrite Hw, Hh in Hidx. unfold mod_ in Hidx.
    destruct (_width o * _height o =? 0); [discriminate |].
    inversion Hidx; subst. intros Hpos. now apply Z.mod_pos_bound.
Qed.

Lemma keeps_op op : keeps o (run_op op).
Proof.
  destruct op; cbn [run_op];
    unfold clear, home, shift, set_display_opts, set_entry_mode,
      set_ddram, set_cgram.
  - apply keeps_send.
  - apply keeps_send.
  - apply keeps_send.
  - unfold write.
    apply keeps_bind; [apply keeps_send | intros _].
    apply keeps_get. intros self Hself.
    apply keeps_bind.
    + apply keeps_put. apply like_with_ch_idx; [exact Hself | lia].
    + intros _. apply keeps_for_each. apply keeps_write_char.
  - apply keeps_set_8bit_mode.
  - unfold set_4bit_mode.
    apply keeps_get. intros self Hself.
    apply keeps_bind; [| intros _; apply keeps_send].
    apply keeps_if; [apply keeps_ret | apply keeps_set_8bit_mode].
  - apply keeps_send.
  - apply keeps_send.
  - unfold set_function. apply keeps_get. intros self _. apply keeps_send.
  - apply keeps_send.
  - apply keeps_send.
Qed.

Lemma keeps_ops ops : forall st, steady o st -> steady o (run_ops ops st).
Proof.
  induction ops as [| op ops IH]; intros st Hst; [exact Hst |].
  cbn [run_ops]. apply IH. now apply keeps_op.
Qed.

End Keeps.

Lemma blind_write_char ch : log_blind (write_char ch).
Proof. unfold write_char, set_ddram. blind. Qed.

Lemma blind_run_op op : log_blind (run_op op).
Proof.
  pose proof blind_write_char.
  destruct op; cbn [run_op];
    unfold clear, home, shift, write, set_8bit_mode, set_4bit_mode,
      set_display_opts, set_entry_mode, set_function, set_ddram, set_cgram;
    blind.
Qed.

Lemma run_ops_grows ops : forall st,
  exists t, snd (run_ops ops st) = snd st ++ t.
Proof.
  induction ops as [| op ops IH]; intros st.
  - exists []. now rewrite app_nil_r.
  - cbn [run_ops]. destruct (IH (snd (run_op op st))) as [t Ht].
    destruct st as [self hw]. rewrite Ht, blind_run_op.
    unfold shift_log. cbn [snd]. eexists. now rewrite <- app_assoc.
Qed.

(** [X13] Take an object whose clock pin is neither its register-select
    pin nor one of its data pins, whose mode attribute is MODE_8BIT, whose
    counter is a cell of the screen, and whose clock line is low.  After
    any sequence of public operations with any arguments, each of which
    may return or raise, the object is the same up to its counter (pins,
    geometry, line table and mode attribute are untouched), the counter is
    again a cell of the screen, the pin log has only grown, and the clock
    line is low. *)
Theorem operations_keep_object_and_clock :
  forall (o self : HD44780) (hw : list event) (ops : list public_op),
    _mode o = MODE_8BIT ->
    wired o ->
    like o self ->
    level (_clk_pin o) hw 0 = 0 ->
    like o (fst (run_ops ops (self, hw))) /\
    level (_clk_pin o) (snd (run_ops ops (self, hw))) 0 = 0 /\
    exists t, snd (run_ops ops (self, hw)) = hw ++ t.
Proof.
  intros o self hw ops Hmode Hwired Hlike Hlow.
  destruct (keeps_ops o Hmode Hwired ops (self, hw) (conj Hlike Hlow))
    as [H1 H2].
  repeat split; [exact H1 | exact H2 |].
  exact (run_ops_grows ops (self, hw)).
Qed.

Lemma operations_keep_object_and_clock_witness :
  like lcd_16x2
       (fst (run_ops [OpWrite [72; 256]%N; OpSet8bitMode; OpShift 1 0]
               (lcd_16x2, []))) /\
  level "GP0"
        (snd (run_ops [OpWrite [72; 256]%N; OpSet8bitMode; OpShift 1 0]
                (lcd_16x2, []))) 0 = 0 /\
  exists t,
    snd (run_ops [OpWrite [72; 256]%N; OpSet8bitMode; OpShift 1 0]
           (lcd_16x2, [])) = [] ++ t.
Proof.
  apply (operations_keep_object_and_clock lcd_16x2 lcd_16x2 []).
  - reflexivity.
  - split; [discriminate |].
    cbn. intros [H | [H | [H | [H | H]]]]; try discriminate H. exact H.
  - exists 0. split; [reflexivity | cbn; lia].
  - reflexivity.
Defined.

Lemma level_ends_low c t v : level c (t ++ [PinValue c 0]) v = 0.
Proof.
  rewrite level_app. cbn [level]. now rewrite String.eqb_refl.
Qed.

Lemma chunk_events_ends_low self d bits :
  exists t, chunk_events self d bits = t ++ [PinValue (_clk_pin self) 0].
Proof.
  unfold chunk_events.
  exists (map (fun pv => PinValue (fst pv) (snd pv))
              (combine (_data_pins self) bits)
          ++ [PinValue (_clk_pin self) 1; SleepUs d]).
  now rewrite <- app_assoc.
Qed.

Lemma byte_events_ends_low self msg_type bits :
  exists t, byte_events self msg_type bits = t ++ [PinValue (_clk_pin self) 0].
Proof.
  unfold byte_events.
  destruct (_no_pins self =? 4).
  - destruct (chunk_events_ends_low self DELAY_US (skipn 4 bits)) as [t ->].
    exists (PinValue (_rs_pin self) (int_eq msg_type MSG_TYPE_DATA)
            :: chunk_events self DELAY_US (firstn 4 bits) ++ t).
    cbn [app]. now rewrite <- app_assoc.
  - destruct (chunk_events_ends_low self DELAY_US bits) as [t ->].
    now exists (PinValue (_rs_pin self) (int_eq msg_type MSG_TYPE_DATA) :: t).
Qed.

(** [X14] An object the constructor has returned, with its clock pin
    wired apart from register select and the data pins, keeps what it was
    built with: after any sequence of public operations, returning or
    raising, [width], [height] and [host_pins] still give the
    constructor's arguments, [mode] is MODE_4BIT, the counter is 0 or,
    for a positive width, a cell of the screen, and the clock line is
    low. *)
Theorem built_object_keeps_configuration :
  forall (pins : option (list pin)) (clk rs : pin) (rw : option pin)
         (w h font : Z) (hw hw' : list event) (self : HD44780)
         (ops : list public_op),
    __init__ pins clk rs rw w h font hw = (Ok self, hw') ->
    rs <> clk ->
    ~ In clk (match pins with None => default_host_pins | Some l => l end) ->
    let st := run_ops ops (self, hw') in
    width (fst st) = w /\ height (fst st) = h /\
    host_pins (fst st) = match pins with
                         | None => default_host_pins
                         | Some l => l
                         end /\
    mode (fst st) = MODE_4BIT /\
    (0 < w -> 0 <= _ch_idx (fst st) < w * h) /\
    level clk (snd st) 0 = 0.
Proof.
  intros pins clk rs rw w h font hw hw' self ops Hrun Hrs Hdata st.
  set (hp := match pins with None => default_host_pins | Some l => l end)
    in *.
  assert (Hrun' : __init__ (Some hp) clk rs rw w h font hw = (Ok self, hw'))
    by (destruct pins; exact Hrun).
  destruct (init_ok_object hp clk rs rw w h font hw self hw' Hrun')
    as (Hlen & la & Hline & ->).
  assert (Hh : 0 < h).
  { unfold _init_line_addrs in Hline.
    destruct (h =? 1) eqn:E1; [apply Z.eqb_eq in E1; lia |].
    destruct (h =? 2) eqn:E2; [apply Z.eqb_eq in E2; lia |].
    destruct (h =? 4) eqn:E4; [apply Z.eqb_eq in E4; lia | discriminate]. }
  assert (Hlow : level clk hw' 0 = 0).
  { assert (Hlog : exists pre bits,
              hw' = pre ++ byte_events (built hp clk rs rw w h la)
                             MSG_TYPE_CMD bits).
    { rewrite (init_4pins hp clk rs rw w h font hw la Hlen Hline) in Hrun'.
      pose proof (f_equal snd Hrun') as Hlog. cbn [snd] in Hlog.
      rewrite <- Hlog, !app_assoc. now do 2 eexists. }
    destruct Hlog as (pre & bits & ->).
    destruct (byte_events_ends_low (built hp clk rs rw w h la) MSG_TYPE_CMD
                bits) as [t ->].
    rewrite app_assoc.
    exact (level_ends_low clk (pre ++ t) 0). }
  set (o := built hp clk rs rw w h la) in *.
  assert (Hlike : like o o).
  { exists 0. split; [reflexivity |]. cbn. lia. }
  destruct (keeps_ops o eq_refl (conj Hrs Hdata) ops (o, hw')
              (conj Hlike Hlow)) as ((idx & Hobj & Hidx) & Hclk).
  fold st in Hobj, Hclk. rewrite Hobj.
  repeat split.
  - unfold host_pins. cbn. apply map_id.
  - unfold mode. cbn. now rewrite Hlen.
  - cbn in Hidx |- *. nia.
  - cbn in Hidx |- *. nia.
  - exact Hclk.
Qed.

Lemma built_object_keeps_configuration_witness :
  level "GP0"
        (snd (run_ops [OpWrite [72; 256]%N; OpSetDdram (-3); OpClear]
                (lcd_16x2,
                 snd (__init__ None "GP0" "GP4" None 16 2 FONT_5x8 []))))
        0 = 0.
Proof.
  refine (proj2 (proj2 (proj2 (proj2 (proj2
            (built_object_keeps_configuration None "GP0" "GP4" None 16 2
               FONT_5x8 [] _ lcd_16x2
               [OpWrite [72; 256]%N; OpSetDdram (-3); OpClear]
               (init_default []) _ _)))))).
  - discriminate.
  - cbn. intros [H | [H | [H | [H | H]]]]; try discriminate H. exact H.
Defined.

(** ** Command bytes read back *)

Lemma address_offset (a mask high k : Z) :
  (mask = 0xff /\ high = 0x80 /\ k = 128) \/
  (mask = 0x7f /\ high = 0x40 /\ k = 64) ->
  0 <= a < k ->
  Z.lor (Z.land a mask) high = a + high.
Proof.
  intros Hk Ha.
  assert (Ha' : 0 <= a < 256) by (destruct Hk as [(_ & _ & ->) | (_ & _ & ->)]; lia).
  revert Ha.
  apply (byte_cases a (fun x => 0 <= x < k ->
                                Z.lor (Z.land x mask) high = x + high) Ha').
  intros n Hn Hlt.
  assert (Hb : forallb (fun n => (k <=? Z.of_nat n)
                                 || (Z.lor (Z.land (Z.of_nat n) mask) high
                                     =? Z.of_nat n + high))
                       (seq 0 256) = true)
    by (destruct Hk as [(-> & -> & ->) | (-> & -> & ->)];
        vm_compute; reflexivity).
  rewrite forallb_forall in Hb.
  specialize (Hb n (proj2 (in_seq 256 0 n) (conj (Nat.le_0_l n) Hn))).
  apply orb_true_iff in Hb as [Hb | Hb];
    [apply Z.leb_le in Hb; lia | now apply Z.eqb_eq].
Qed.

Lemma decode_address (a high k : Z) :
  (high = 0x80 /\ k = 128) \/ (high = 0x40 /\ k = 64) ->
  0 <= a < k ->
  decode_command (a + high) =
  Some (if high =? 0x80 then OpSetDdram a else OpSetCgram a).
Proof.
  intros Hk Ha. unfold decode_command.
  destruct Hk as [[-> ->] | [-> ->]]; cbn [Z.eqb Pos.eqb];
    repeat match goal with
           | |- context [?x <? ?y] =>
               destruct (Z.ltb_spec x y); try lia
           end;
    f_equal; f_equal; lia.
Qed.

(** [X15] Every command operation sends one command byte from which the
    operation and its arguments can be read back: on a supported bus, for
    flags that are 0 or 1, a CGRAM address below 64 and a DDRAM address
    below 128, the operation returns, leaves the object as it was, and its
    8-bit payload decodes to the very operation called.  So two different
    command calls never put the same byte on the bus. *)
Theorem command_bytes_decode :
  forall (op : public_op) (self : HD44780) (hw : list event),
    bus_ready self ->
    command_args_ok op ->
    exists bits : list Z,
      run_op op (self, hw) =
      (Ok tt, (self, hw ++ byte_events self MSG_TYPE_CMD bits)) /\
      length bits = 8%nat /\
      decode_command (bits_value bits) = Some op.
Proof.
  intros op self hw Hbus Hargs.
  destruct op; cbn [command_args_ok] in Hargs; try contradiction;
    cbn [run_op].
  - eexists. split; [unfold clear; now apply send_byte |].
    split; reflexivity.
  - eexists. split; [unfold home; now apply send_byte |].
    split; reflexivity.
  - eexists. split; [unfold shift; now apply send_byte |].
    split; [reflexivity |].
    destruct Hargs as [[-> | ->] [-> | ->]]; reflexivity.
  - eexists. split; [unfold set_display_opts; now apply send_byte |].
    split; [reflexivity |].
    destruct Hargs as ([-> | ->] & [-> | ->] & [-> | ->]); reflexivity.
  - eexists. split; [unfold set_entry_mode; now apply send_byte |].
    split; [reflexivity |].
    destruct Hargs as [[-> | ->] [-> | ->]]; reflexivity.
  - eexists. split.
    + unfold set_function, bind. cbn [get_self fst snd]. now apply send_byte.
    + split; [reflexivity |].
      destruct Hbus as [_ [-> | ->]];
        destruct Hargs as [[-> | ->] [-> | ->]]; reflexivity.
  - destruct (set_address_payload addr 0xff 0x80
                (or_introl eq_refl) (or_introl eq_refl)) as (Hl & _ & Hv).
    eexists. split; [unfold set_ddram; now apply send_byte |].
    split; [exact Hl |].
    rewrite Hv.
    rewrite (address_offset addr 0xff 0x80 128) by (try lia; now left).
    now rewrite (decode_address addr 0x80 128) by (try lia; now left).
  - destruct (set_address_payload addr 0x7f 0x40
                (or_intror eq_refl) (or_intror eq_refl)) as (Hl & _ & Hv).
    eexists. split; [unfold set_cgram; now apply send_byte |].
    split; [exact Hl |].
    rewrite Hv.
    rewrite (address_offset addr 0x7f 0x40 64) by (try lia; now right).
    now rewrite (decode_address addr 0x40 64) by (try lia; now right).
Qed.

Lemma command_bytes_decode_witness :
  exists bits : list Z,
    run_op (OpSetDisplayOpts 1 0 1) (lcd_16x2, []) =
    (Ok tt, (lcd_16x2, [] ++ byte_events lcd_16x2 MSG_TYPE_CMD bits)) /\
    length bits = 8%nat /\
    decode_command (bits_value bits) = Some (OpSetDisplayOpts 1 0 1).
Proof.
  apply command_bytes_decode.
  - split; [reflexivity | left; reflexivity].
  - cbn. repeat split; (now left) || (now right).
Defined.

(** ** Waiting for the previous command *)

(** One call: it sleeps only when the clock reads less than the
    recorded completion time, then records the new one. *)
Lemma wait_for_completion_run self hw now delay_us :
  _wait_for_completion now delay_us (self, hw) =
  (Ok tt,
   (with_last_cmd_complete self (now + delay_us),
    hw ++ (if now <? _last_cmd_complete self
           then [SleepUs (_last_cmd_complete self - now + 1)]
           else []))).
Proof.
  unfold _wait_for_completion, bind, get_self. cbn [fst snd].
  destruct (now <? _last_cmd_complete self).
  - now destruct (_rw_pin self).
  - cbn. now rewrite app_nil_r.
Qed.

(** [X16] Two calls of [_wait_for_completion] in a row, at clock readings
    [now1] and [now2]: the second call returns, writes no pin, and does
    not come back before [now1 + delay1] (its clock reading plus the time
    it has slept is at least that); the object afterwards differs from the
    first one only in [_last_cmd_complete], which is [now2 + delay2].
    This holds with and without a read/write pin. *)
Theorem wait_for_completion_spaces_calls :
  forall (self : HD44780) (hw : list event) (now1 delay1 now2 delay2 : Z),
    let st1 := snd (_wait_for_completion now1 delay1 (self, hw)) in
    let r2 := _wait_for_completion now2 delay2 st1 in
    fst r2 = Ok tt /\
    fst (snd r2) = with_last_cmd_complete self (now2 + delay2) /\
    exists t2,
      snd (snd r2) = snd st1 ++ t2 /\
      now1 + delay1 <= now2 + slept t2 /\
      (forall p v, ~ In (PinValue p v) t2).
Proof.
  intros self hw now1 delay1 now2 delay2 st1 r2.
  unfold r2, st1. rewrite (wait_for_completion_run self hw now1 delay1).
  cbn [snd]. rewrite wait_for_completion_run.
  cbn [fst snd with_last_cmd_complete _last_cmd_complete].
  split; [reflexivity | split; [reflexivity |]].
  eexists. split; [reflexivity |].
  destruct (Z.ltb_spec now2 (now1 + delay1)) as [Hlt | Hge]; cbn [slept].
  - split; [lia |]. intros q u [H | H]; [discriminate H | exact H].
  - split; [lia |]. intros q u H. exact H.
Qed.

(** ** Every number of data pins *)

(** [X17] What the constructor does for every list of data pins but one
    of 4.  A height other than 1, 2 or 4 raises the configuration error of
    the line table before any pin is written.  Otherwise no pins raise
    ValueError, 1 or 2 pins raise the pin-count configuration error, and 3
    pins or 5 and more (8 included) raise IndexError.  In no case is an
    object returned. *)
Theorem constructor_without_4_pins :
  forall (host_pins : list pin) (clk rs : pin) (rw : option pin)
         (w h font : Z) (hw : list event),
    length host_pins <> 4%nat ->
    fst (__init__ (Some host_pins) clk rs rw w h font hw) =
    if (h =? 1) || (h =? 2) || (h =? 4)
    then match length host_pins with
         | 0%nat => Raise ValueError
         | 1%nat | 2%nat => Raise pin_count_error
         | _ => Raise IndexError
         end
    else Raise (Exception "No DDRAM -> pixel mapping for this ratio!").
Proof.
  intros host_pins clk rs rw w h font hw Hne.
  destruct (_init_line_addrs w h) as [la | e] eqn:Hline.
  - rewrite (init_pin_count host_pins clk rs rw w h font hw la Hline Hne).
    unfold _init_line_addrs in Hline.
    destruct (h =? 1); [reflexivity |].
    destruct (h =? 2); [reflexivity |].
    destruct (h =? 4); [reflexivity | discriminate].
  - unfold __init__. rewrite Hline. cbn [fst].
    unfold _init_line_addrs in Hline.
    destruct (h =? 1); [discriminate |].
    destruct (h =? 2); [discriminate |].
    destruct (h =? 4); [discriminate |].
    now inversion Hline.
Qed.

Lemma constructor_without_4_pins_witness :
  fst (__init__ (Some ["GP8"; "GP30"; "GP31"; "GP3"; "GP22"]) "GP0" "GP4"
         None 16 2 FONT_5x8 []) = Raise IndexError.
Proof.
  apply (constructor_without_4_pins
           ["GP8"; "GP30"; "GP31"; "GP3"; "GP22"] "GP0" "GP4" None 16 2
           FONT_5x8 []).
  discriminate.
Defined.

(** ** How long [write] blocks *)

Lemma slept_app t1 t2 : slept (t1 ++ t2) = slept t1 + slept t2.
Proof.
  induction t1 as [| e t1 IH]; [reflexivity |].
  destruct e; cbn [app slept]; rewrite IH; lia.
Qed.

Lemma slept_pin_writes (l : list (pin * Z)) :
  slept (map (fun pv => PinValue (fst pv) (snd pv)) l) = 0.
Proof. induction l as [| x l IH]; [reflexivity | exact IH]. Qed.

Lemma slept_chunk self d bits : slept (chunk_events self d bits) = d.
Proof.
  unfold chunk_events. rewrite slept_app, slept_pin_writes. cbn. lia.
Qed.

Lemma slept_byte self msg_type bits :
  slept (byte_events self msg_type bits) =
  DELAY_US * (if _no_pins self =? 4 then 2 else 1).
Proof.
  unfold byte_events. cbn [slept].
  destruct (_no_pins self =? 4).
  - rewrite slept_app, !slept_chunk. lia.
  - rewrite slept_chunk. lia.
Qed.

Lemma slept_write_events self tbl buf : forall idx,
  let unit := DELAY_US * (if _no_pins self =? 4 then 2 else 1) in
  unit * Z.of_nat (length buf)
  <= slept (write_events self tbl idx buf)
  <= 2 * unit * Z.of_nat (length buf).
Proof.
  intros idx unit. revert idx.
  assert (Hunit : 0 < unit)
    by (unfold unit, DELAY_US; destruct (_no_pins self =? 4); lia).
  induction buf as [| ch rest IH]; intros idx; [cbn; lia |].
  cbn [write_events length]. rewrite !slept_app, slept_byte.
  fold unit. specialize (IH ((idx + 1) mod (_width self * _height self))).
  rewrite Nat2Z.inj_succ.
  destruct (idx mod _width self =? 0).
  - rewrite slept_byte. fold unit. lia.
  - cbn [slept]. lia.
Qed.

(** [X18] How long [write] blocks.  A transfer of one byte sleeps the
    settle delay of 1530 microseconds once per chunk, that is 3060 on 4
    data pins and 1530 on 8.  [write] of a text of [n] 8-bit characters
    returns after having slept at least [(1 + n)] and at most
    [(1 + 2 n)] times that. *)
Theorem write_blocks_for :
  forall (self : HD44780) (hw : list event) (tbl : list Z) (buf : list N),
    write_ready self tbl ->
    latin1 buf ->
    exists self' t,
      write buf (self, hw) = (Ok tt, (self', hw ++ t)) /\
      let unit := DELAY_US * (if _no_pins self =? 4 then 2 else 1) in
      unit * (1 + Z.of_nat (length buf)) <= slept t
      <= unit * (1 + 2 * Z.of_nat (length buf)).
Proof.
  intros self hw tbl buf Hready Hbuf.
  do 2 eexists. split; [now apply (write_spec buf self hw tbl) |].
  intros unit. rewrite slept_app, slept_byte. fold unit.
  pose proof (slept_write_events self tbl buf 0) as H. cbn zeta in H.
  fold unit in H. lia.
Qed.

Lemma write_blocks_for_witness :
  exists self' t,
    write [72; 105]%N (lcd_16x2, []) = (Ok tt, (self', [] ++ t)) /\
    let unit := DELAY_US * (if _no_pins lcd_16x2 =? 4 then 2 else 1) in
    unit * (1 + Z.of_nat (length [72; 105]%N)) <= slept t
    <= unit * (1 + 2 * Z.of_nat (length [72; 105]%N)).
Proof.
  apply (write_blocks_for lcd_16x2 [] [0x00; 0x40] [72; 105]%N).
  - repeat split; try reflexivity. left; reflexivity.
  - repeat constructor.
Defined.

(** ** The reset sequence on every bus *)


